(** * Visual consistency manager: a shallow embedding and its properties

    The development embeds
    - [backend/app/agents/visual_consistency_manager.py]
      (the [VisualState] dataclass and [VisualConsistencyManager]), and
    - [backend/app/agents/helpers/video_consistency_helper.py]
      ([VideoConsistencyHelper]).

    Python objects are dynamically typed: a state loaded from a JSON
    snapshot, or merged from the reply of a vision model, holds whatever
    the JSON held.  Fields are therefore values of [pyval]; the states the
    type annotations describe are singled out by [valid_state].  Methods
    run in a state-and-exception monad in which a raised exception keeps
    the assignments made before it. *)

From Stdlib Require Import ZArith QArith String List Ascii.
From stdpp Require Import base option gmap strings list.

Set Warnings "-register-all".
Open Scope string_scope.
Open Scope list_scope.

(** ** Python values and exceptions *)

(** The values a decoded JSON document is made of ([json.loads]), numbers
    being integers. *)
Inductive pyval : Type :=
  | PNone
  | PBool (b : bool)
  | PInt (n : Z)
  | PStr (s : string)
  | PList (l : list pyval)
  | PDict (d : gmap string pyval).

(** The built-in exceptions the embedded code can meet; all of them are
    subclasses of [Exception]. *)
Inductive pyexn : Type :=
  | TypeError
  | KeyError
  | AttributeError
  | ValueError
  | NetworkError.

Inductive outcome (A : Type) : Type :=
  | Returns (a : A)
  | Raises (e : pyexn).
Arguments Returns {A} a.
Arguments Raises {A} e.

#[global] Instance outcome_ret : MRet outcome := λ A a, Returns a.
#[global] Instance outcome_bind : MBind outcome := λ A B f c,
  match c with
  | Returns a => f a
  | Raises e => Raises e
  end.

Definition returned {A} (c : outcome A) : bool :=
  match c with Returns _ => true | Raises _ => false end.

(** ** The method monad: a state that survives an exception *)

Definition M (S A : Type) : Type := S → outcome A * S.

#[global] Instance M_ret {S} : MRet (M S) := λ A a s, (Returns a, s).
#[global] Instance M_bind {S} : MBind (M S) := λ A B f c s,
  match c s with
  | (Returns a, s') => f a s'
  | (Raises e, s') => (Raises e, s')
  end.

(** Reading an attribute of [self] and assigning to one. *)
Definition reads {S A} (f : S → A) : M S A := λ s, (Returns (f s), s).
Definition assign {S} (upd : S → S) : M S unit := λ s, (Returns tt, upd s).
(** A fallible expression that touches no state. *)
Definition lift {S A} (c : outcome A) : M S A := λ s, (c, s).
(** [try: body except Exception: handler]. *)
Definition try_except {S A} (body : M S A) (handler : pyexn → M S A) : M S A :=
  λ s, match body s with
       | (Returns a, s') => (Returns a, s')
       | (Raises e, s') => handler e s'
       end.

(** ** Python primitives used by the embedded code *)

(** Truth value of an object in [if x:]. *)
Definition truthy (v : pyval) : bool :=
  match v with
  | PNone => false
  | PBool b => b
  | PInt n => negb (n =? 0)%Z
  | PStr s => negb (s =? "")
  | PList l => match l with [] => false | _ => true end
  | PDict d => match map_to_list d with [] => false | _ => true end
  end.

(** Truth value of an [Optional[str]] argument or attribute. *)
Definition truthy_opt (o : option string) : bool :=
  match o with
  | None => false
  | Some s => negb (s =? "")
  end.

(** The characters of a string, each as a string of length one. *)
Fixpoint chars_of (s : string) : list pyval :=
  match s with
  | EmptyString => []
  | String c s' => PStr (String c EmptyString) :: chars_of s'
  end.

(** [for x in v]: the items the loop visits. *)
Definition py_iter (v : pyval) : outcome (list pyval) :=
  match v with
  | PList l => Returns l
  | PStr s => Returns (chars_of s)
  | PDict d => Returns (PStr <$> (map_to_list d).*1)
  | _ => Raises TypeError
  end.

(** [v[k]] for a string key [k]. *)
Definition py_getitem (v : pyval) (k : string) : outcome pyval :=
  match v with
  | PDict d => match d !! k with
               | Some x => Returns x
               | None => Raises KeyError
               end
  | _ => Raises TypeError
  end.

(** [v[k] = x] for a string key [k]; the result is the updated object. *)
Definition py_setitem (v : pyval) (k : string) (x : pyval) : outcome pyval :=
  match v with
  | PDict d => Returns (PDict (<[k := x]> d))
  | _ => Raises TypeError
  end.

(** [v.append(x)]. *)
Definition py_append (v x : pyval) : outcome pyval :=
  match v with
  | PList l => Returns (PList (l ++ [x]))
  | _ => Raises AttributeError
  end.

(** [v.get(k, dflt)]: only a [dict] has the method. *)
Definition py_get (v : pyval) (k : string) (dflt : pyval) : outcome pyval :=
  match v with
  | PDict d => Returns (default dflt (d !! k))
  | _ => Raises AttributeError
  end.

(** [v[:3]]. *)
Definition py_slice3 (v : pyval) : outcome pyval :=
  match v with
  | PList l => Returns (PList (take 3 l))
  | PStr s => Returns (PStr (substring 0 3 s))
  | _ => Raises TypeError
  end.

(** The items of [sep.join(v)] must all be strings. *)
Fixpoint all_strs (l : list pyval) : outcome (list string) :=
  match l with
  | [] => Returns []
  | PStr s :: l' => ss ← all_strs l'; Returns (s :: ss)
  | _ :: _ => Raises TypeError
  end.

(** [sep.join(v)]. *)
Definition py_join (sep : string) (v : pyval) : outcome string :=
  items ← py_iter v;
  ss ← all_strs items;
  Returns (String.concat sep ss).

(** [v == s] for a string [s]. *)
Definition py_eq_str (v : pyval) (s : string) : bool :=
  match v with
  | PStr s' => s' =? s
  | _ => false
  end.

(** ** [VisualState] *)

(** The dataclass: one attribute per declared field, each holding whatever
    object was stored in it. *)
Record VisualState : Type := mkVisualState {
  reference_image_url : pyval;
  primary_colors : pyval;
  art_style : pyval;
  main_characters : pyval;
  setting : pyval;
  lighting : pyval;
  atmosphere : pyval;
  camera_style : pyval;
  composition : pyval;
  current_segment : pyval;
  previous_scene_summary : pyval;
  seed : pyval
}.

Definition with_reference_image_url (v : pyval) (s : VisualState) : VisualState :=
  mkVisualState v (primary_colors s) (art_style s) (main_characters s)
    (setting s) (lighting s) (atmosphere s) (camera_style s) (composition s)
    (current_segment s) (previous_scene_summary s) (seed s).

Definition with_primary_colors (v : pyval) (s : VisualState) : VisualState :=
  mkVisualState (reference_image_url s) v (art_style s) (main_characters s)
    (setting s) (lighting s) (atmosphere s) (camera_style s) (composition s)
    (current_segment s) (previous_scene_summary s) (seed s).

Definition with_art_style (v : pyval) (s : VisualState) : VisualState :=
  mkVisualState (reference_image_url s) (primary_colors s) v (main_characters s)
    (setting s) (lighting s) (atmosphere s) (camera_style s) (composition s)
    (current_segment s) (previous_scene_summary s) (seed s).

Definition with_main_characters (v : pyval) (s : VisualState) : VisualState :=
  mkVisualState (reference_image_url s) (primary_colors s) (art_style s) v
    (setting s) (lighting s) (atmosphere s) (camera_style s) (composition s)
    (current_segment s) (previous_scene_summary s) (seed s).

Definition with_setting (v : pyval) (s : VisualState) : VisualState :=
  mkVisualState (reference_image_url s) (primary_colors s) (art_style s)
    (main_characters s) v (lighting s) (atmosphere s) (camera_style s)
    (composition s) (current_segment s) (previous_scene_summary s) (seed s).

Definition with_atmosphere (v : pyval) (s : VisualState) : VisualState :=
  mkVisualState (reference_image_url s) (primary_colors s) (art_style s)
    (main_characters s) (setting s) (lighting s) v (camera_style s)
    (composition s) (current_segment s) (previous_scene_summary s) (seed s).

Definition with_current_segment (v : pyval) (s : VisualState) : VisualState :=
  mkVisualState (reference_image_url s) (primary_colors s) (art_style s)
    (main_characters s) (setting s) (lighting s) (atmosphere s)
    (camera_style s) (composition s) v (previous_scene_summary s) (seed s).

Definition with_previous_scene_summary (v : pyval) (s : VisualState) : VisualState :=
  mkVisualState (reference_image_url s) (primary_colors s) (art_style s)
    (main_characters s) (setting s) (lighting s) (atmosphere s)
    (camera_style s) (composition s) (current_segment s) v (seed s).

Definition with_seed (v : pyval) (s : VisualState) : VisualState :=
  mkVisualState (reference_image_url s) (primary_colors s) (art_style s)
    (main_characters s) (setting s) (lighting s) (atmosphere s)
    (camera_style s) (composition s) (current_segment s)
    (previous_scene_summary s) v.

(** The declared fields, in declaration order. *)
Definition field_names : list string :=
  [ "reference_image_url"; "primary_colors"; "art_style"; "main_characters";
    "setting"; "lighting"; "atmosphere"; "camera_style"; "composition";
    "current_segment"; "previous_scene_summary"; "seed" ].

(** [__post_init__]: a [None] sequence becomes the empty list. *)
Definition post_init (s : VisualState) : VisualState :=
  let s := match primary_colors s with
           | PNone => with_primary_colors (PList []) s
           | _ => s
           end in
  match main_characters s with
  | PNone => with_main_characters (PList []) s
  | _ => s
  end.

(** The generated [__init__], called with keyword arguments: a keyword that
    is not a field is a [TypeError], a missing one takes the declared
    default, and nothing is checked against the annotations. *)
Definition VisualState_init (kwargs : gmap string pyval) : outcome VisualState :=
  if forallb (λ k, bool_decide (k ∈ field_names)) (map_to_list kwargs).*1 then
    Returns (post_init {|
      reference_image_url := default PNone (kwargs !! "reference_image_url");
      primary_colors := default PNone (kwargs !! "primary_colors");
      art_style :=
        default (PStr "hand-drawn cartoon illustration") (kwargs !! "art_style");
      main_characters := default PNone (kwargs !! "main_characters");
      setting := default (PStr "") (kwargs !! "setting");
      lighting := default (PStr "bright, warm lighting") (kwargs !! "lighting");
      atmosphere := default (PStr "cheerful, educational") (kwargs !! "atmosphere");
      camera_style :=
        default (PStr "medium shot, eye level") (kwargs !! "camera_style");
      composition := default (PStr "centered, balanced") (kwargs !! "composition");
      current_segment := default (PStr "hook") (kwargs !! "current_segment");
      previous_scene_summary :=
        default (PStr "") (kwargs !! "previous_scene_summary");
      seed := default PNone (kwargs !! "seed")
    |})
  else Raises TypeError.

(** [VisualState()]: every field at its declared default. *)
Definition fresh_state : VisualState :=
  Eval vm_compute in
    match VisualState_init ∅ with
    | Returns s => s
    | Raises _ => post_init (mkVisualState PNone PNone PNone PNone PNone PNone
                               PNone PNone PNone PNone PNone PNone)
    end.

(** [asdict(self)]: a dict with one key per field; lists and dicts are
    copied recursively, which leaves a value as it is. *)
Definition to_dict (s : VisualState) : gmap string pyval :=
  <["reference_image_url" := reference_image_url s]> (
  <["primary_colors" := primary_colors s]> (
  <["art_style" := art_style s]> (
  <["main_characters" := main_characters s]> (
  <["setting" := setting s]> (
  <["lighting" := lighting s]> (
  <["atmosphere" := atmosphere s]> (
  <["camera_style" := camera_style s]> (
  <["composition" := composition s]> (
  <["current_segment" := current_segment s]> (
  <["previous_scene_summary" := previous_scene_summary s]> (
  <["seed" := seed s]> ∅))))))))))).

(** [from_dict]: the class called with the entries of [data] as keyword
    arguments. *)
Definition from_dict (data : gmap string pyval) : outcome VisualState :=
  VisualState_init data.

(** The states the annotations describe. *)
Definition is_str (v : pyval) : bool :=
  match v with PStr _ => true | _ => false end.

Definition is_character (v : pyval) : bool :=
  match v with
  | PDict d =>
      match d !! "name", d !! "description" with
      | Some (PStr _), Some (PStr _) => true
      | _, _ => false
      end
  | _ => false
  end.

Definition is_list_of (p : pyval → bool) (v : pyval) : bool :=
  match v with PList l => forallb p l | _ => false end.

Definition valid_state (s : VisualState) : bool :=
  match reference_image_url s with PNone | PStr _ => true | _ => false end
  && is_list_of is_str (primary_colors s)
  && is_str (art_style s)
  && is_list_of is_character (main_characters s)
  && is_str (setting s) && is_str (lighting s) && is_str (atmosphere s)
  && is_str (camera_style s) && is_str (composition s)
  && is_str (current_segment s) && is_str (previous_scene_summary s)
  && match seed s with PNone | PInt _ => true | _ => false end.


(** ** [VisualConsistencyManager] *)

Record VisualConsistencyManager : Type := mkManager {
  openrouter_api_key : option string;
  visual_state : VisualState
}.

(** [__init__]. *)
Definition new_manager (key : option string) : VisualConsistencyManager :=
  mkManager key fresh_state.

Definition on_visual_state (upd : VisualState → VisualState)
    (m : VisualConsistencyManager) : VisualConsistencyManager :=
  mkManager (openrouter_api_key m) (upd (visual_state m)).

(** [self.visual_state.f] and [self.visual_state.f = v]. *)
Definition attr (f : VisualState → pyval) : M VisualConsistencyManager pyval :=
  reads (λ m, f (visual_state m)).
Definition set_attr (upd : pyval → VisualState → VisualState) (v : pyval)
  : M VisualConsistencyManager unit :=
  assign (on_visual_state (upd v)).

(** What the network answers during one call of
    [extract_style_from_diagram]: the status of the download (or the
    exception it ends in), and the value [_analyze_with_vision] hands back.
    That method catches every exception itself and returns either an empty
    dict or the decoded JSON text of the model's reply, so its result is an
    arbitrary JSON value. *)
Record world : Type := mkWorld {
  http_get : string → outcome Z;
  vision_result : pyval
}.

(** The fallback analysis used without an API key. *)
Definition fallback_style : pyval :=
  PDict (<["art_style" := PStr "illustrated, colorful, kid-friendly"]> (
         <["primary_colors" := PList [PStr "vibrant"; PStr "saturated"]]> (
         <["atmosphere" := PStr "educational, engaging"]> ∅))).

Definition extract_style_from_diagram (w : world) (diagram_url : string)
  : M VisualConsistencyManager pyval :=
  try_except
    (status_code ← lift (http_get w diagram_url);
     if negb (status_code =? 200)%Z then mret (PDict ∅)
     else
       key ← reads openrouter_api_key;
       let style_analysis :=
         if truthy_opt key then vision_result w else fallback_style in
       _ ← set_attr with_reference_image_url (PStr diagram_url);
       old ← attr art_style;
       v ← lift (py_get style_analysis "art_style" old);
       _ ← set_attr with_art_style v;
       v ← lift (py_get style_analysis "primary_colors" (PList []));
       _ ← set_attr with_primary_colors v;
       old ← attr atmosphere;
       v ← lift (py_get style_analysis "atmosphere" old);
       _ ← set_attr with_atmosphere v;
       mret style_analysis)
    (λ _, mret (PDict ∅)).

(** [update_scene_context]. *)
Definition update_scene_context (scene_description : string)
  : M VisualConsistencyManager unit :=
  set_attr with_previous_scene_summary (PStr scene_description).

(** The loop of [define_character] over the items of [main_characters]:
    [Some items'] when an entry with the name was found and updated in
    place (the method returns there), [None] when the loop ran to its end. *)
Fixpoint update_existing (items : list pyval) (name description : string)
  : outcome (option (list pyval)) :=
  match items with
  | [] => Returns None
  | char :: rest =>
      n ← py_getitem char "name";
      if py_eq_str n name then
        char' ← py_setitem char "description" (PStr description);
        Returns (Some (char' :: rest))
      else
        r ← update_existing rest name description;
        Returns (option_map (cons char) r)
  end.

(** The dict literal appended for a new character. *)
Definition character (name description : string) : pyval :=
  PDict (<["name" := PStr name]> (<["description" := PStr description]> ∅)).

Definition define_character (name description : string)
  : M VisualConsistencyManager unit :=
  chars ← attr main_characters;
  items ← lift (py_iter chars);
  found ← lift (update_existing items name description);
  match found with
  | Some items' => set_attr with_main_characters (PList items')
  | None =>
      chars' ← lift (py_append chars (character name description));
      set_attr with_main_characters chars'
  end.

(** [set_seed]. *)
Definition set_seed (seed : Z) : M VisualConsistencyManager unit :=
  set_attr with_seed (PInt seed).

(** [get_state] and [load_state]. *)
Definition get_state : M VisualConsistencyManager (gmap string pyval) :=
  reads (λ m, to_dict (visual_state m)).

Definition load_state (state_dict : gmap string pyval)
  : M VisualConsistencyManager unit :=
  s ← lift (from_dict state_dict);
  assign (on_visual_state (λ _, s)).

(** ** The characters as name/description pairs

    The view of [main_characters] the spec speaks of, and the update it
    describes: replace the description of the entry with the name where it
    stands, or add a new entry at the end. *)

Definition char_entry (v : pyval) : option (string * string) :=
  match v with
  | PDict d =>
      match d !! "name", d !! "description" with
      | Some (PStr n), Some (PStr x) => Some (n, x)
      | _, _ => None
      end
  | _ => None
  end.

Definition entries (chars : pyval) : list (string * string) :=
  match chars with
  | PList items => omap char_entry items
  | _ => []
  end.

Definition character_names (m : VisualConsistencyManager) : list string :=
  (entries (main_characters (visual_state m))).*1.

Fixpoint upsert (name description : string) (l : list (string * string))
  : list (string * string) :=
  match l with
  | [] => [(name, description)]
  | (n, x) :: rest =>
      if n =? name then (n, description) :: rest
      else (n, x) :: upsert name description rest
  end.

(** A sequence of [define_character] calls. *)
Fixpoint define_all (calls : list (string * string))
  : M VisualConsistencyManager unit :=
  match calls with
  | [] => mret tt
  | (name, description) :: rest =>
      _ ← define_character name description;
      define_all rest
  end.

(** ** [VideoConsistencyHelper] *)

(** The storage service of the helper is only used by [initialize] and is
    left out of the record. *)
Record VideoConsistencyHelper : Type := mkHelper {
  user_id : string;
  session_id : string;
  consistency_manager : option VisualConsistencyManager;
  previous_scene : option string
}.

(** [__init__]. *)
Definition new_helper (user session : string) : VideoConsistencyHelper :=
  mkHelper user session None None.

Definition with_consistency_manager (m : option VisualConsistencyManager)
    (h : VideoConsistencyHelper) : VideoConsistencyHelper :=
  mkHelper (user_id h) (session_id h) m (previous_scene h).

Definition with_previous_scene (p : option string)
    (h : VideoConsistencyHelper) : VideoConsistencyHelper :=
  mkHelper (user_id h) (session_id h) (consistency_manager h) p.

(** A method call [self.consistency_manager.method(...)]: the manager is
    an object the helper refers to, so what the method assigned stays
    assigned when it raises; on [None] the attribute lookup fails. *)
Definition on_manager {A} (method : M VisualConsistencyManager A)
  : M VideoConsistencyHelper A :=
  λ h, match consistency_manager h with
       | Some m => let (r, m') := method m in
                   (r, with_consistency_manager (Some m') h)
       | None => (Raises AttributeError, h)
       end.

(** ** The remaining methods of the manager and of the helper *)

(** The dict [get_reference_image_params] returns; [style_weight] is the
    literal 0.6, kept as the decimal it is written as. *)
Record reference_image_params : Type := mkParams {
  params_reference_image_url : pyval;
  style_weight : Q;
  reference_type : string
}.

Definition get_reference_image_params
  : M VisualConsistencyManager (option reference_image_params) :=
  url ← attr reference_image_url;
  if negb (truthy url) then mret None
  else
    url ← attr reference_image_url;
    mret (Some (mkParams url (6 # 10)%Q "style")).

(** [get_seed] and [get_reference_image_url] of the helper. *)
Definition get_seed : M VideoConsistencyHelper pyval :=
  manager ← reads consistency_manager;
  match manager with
  | None => mret PNone
  | Some m => mret (seed (visual_state m))
  end.

Definition get_reference_image_url : M VideoConsistencyHelper pyval :=
  manager ← reads consistency_manager;
  match manager with
  | None => mret PNone
  | Some m => mret (reference_image_url (visual_state m))
  end.

(** [initialize] of the helper.  [stored] is what reading the session's
    snapshot from storage and decoding it gives: the decoded JSON value,
    or the exception raised on the way (no such key, undecodable bytes,
    malformed JSON).  [load_state] hands its argument to [from_dict],
    where unpacking anything but a dict as keyword arguments is a
    [TypeError]. *)
Definition initialize (stored : outcome pyval) : M VideoConsistencyHelper bool :=
  try_except
    (consistency_state ← lift stored;
     _ ← assign (with_consistency_manager (Some (new_manager None)));
     _ ← on_manager (match consistency_state with
                     | PDict state_dict => load_state state_dict
                     | _ => lift (Raises TypeError)
                     end);
     mret true)
    (λ _,
       _ ← assign (with_consistency_manager (Some (new_manager None)));
       mret false).

(** ** Concrete inputs used by the examples below *)

(** A manager that has a scene to continue from. *)
Definition storyteller : VisualConsistencyManager :=
  mkManager None
    (with_previous_scene_summary (PStr "the frog woke up") fresh_state).

(** A manager loaded from a snapshot whose only character is an empty
    dict: looking up its name raises [KeyError]. *)
Definition nameless_snapshot : gmap string pyval :=
  {[ "main_characters" := PList [PDict ∅] ]}.
Definition nameless_manager : VisualConsistencyManager :=
  mkManager None (with_main_characters (PList [PDict ∅]) fresh_state).
Definition nameless_helper : VideoConsistencyHelper :=
  mkHelper "user-1" "session-1" (Some nameless_manager) None.

(** A manager with an API key and a palette already in place. *)
Definition painted_manager : VisualConsistencyManager :=
  mkManager (Some "sk-demo")
    (with_primary_colors (PList [PStr "red"; PStr "blue"]) fresh_state).

(** The download succeeds and the vision model describes the style but
    names no colours. *)
Definition reply_without_colors : world :=
  mkWorld (λ _, Returns 200%Z) (PDict {[ "art_style" := PStr "watercolor" ]}).

(** The download is answered with 404. *)
Definition failed_download : world :=
  mkWorld (λ _, Returns 404%Z) (PDict ∅).

(** The download itself raises (a timeout, say). *)
Definition broken_connection : world :=
  mkWorld (λ _, Raises NetworkError) (PDict ∅).

Definition diagram_url : string := "https://cdn.example/diagram.png".

Definition photosynthesis_session : gmap string pyval :=
  <["topic" := PStr "Photosynthesis"]> (
  <["child_age" := PStr "4"]> (
  <["child_interest" := PStr "dinosaurs"]> ∅)).

Definition unparseable_age_session : gmap string pyval :=
  <["topic" := PStr "Photosynthesis"]> (
  <["child_age" := PStr "not-a-number"]> ∅).

(** The session and the palette of the worked examples. *)
Definition water_cycle_session : gmap string pyval :=
  <["topic" := PStr "Water Cycle"]> (
  <["child_age" := PStr "8"]> (
  <["child_interest" := PStr "space"]> ∅)).

Definition five_colors : pyval :=
  PList [PStr "red"; PStr "green"; PStr "blue"; PStr "pink"; PStr "grey"].

(** A snapshot whose [art_style] is a number. *)
Definition misshapen_snapshot : gmap string pyval :=
  {[ "art_style" := PInt 7 ]}.

(** A manager with five colours, a helper around the storyteller, the
    prompts of a two-segment video, and sessions and snapshots for the
    edge cases. *)
Definition colorful_manager : VisualConsistencyManager :=
  on_visual_state (with_primary_colors five_colors) (new_manager None).

Definition storyteller_helper : VideoConsistencyHelper :=
  mkHelper "user-1" "session-1" (Some storyteller) None.

Definition two_prompts : list (string * string) :=
  [("hook", "A frog wakes up"); ("concept", "A frog jumps")].

Definition age_seven_session : gmap string pyval :=
  {[ "child_age" := PInt 7 ]}.

Definition age_zero_session : gmap string pyval :=
  {[ "child_age" := PInt 0 ]}.

Definition null_palette_snapshot : gmap string pyval :=
  {[ "primary_colors" := PNone ]}.

(** The download succeeds and the vision model answers with a JSON list. *)
Definition list_reply : world :=
  mkWorld (λ _, Returns 200%Z) (PList []).

(** ** A runtime to run the model with

    The theorems hold for every choice of the two built-ins.  To evaluate
    the model on concrete states one choice is fixed here: it agrees with
    the interpreter on the constants and on plain decimal numerals, which
    is all the examples meet. *)

Definition const_repr (v : pyval) : string :=
  match v with
  | PNone => "None"
  | PBool true => "True"
  | PBool false => "False"
  | _ => ""
  end.

Definition digit_of (c : ascii) : option Z :=
  let n := Z.of_nat (nat_of_ascii c) in
  if ((48 <=? n) && (n <=? 57))%Z then Some (n - 48)%Z else None.

Fixpoint read_digits (acc : Z) (s : string) : option Z :=
  match s with
  | EmptyString => Some acc
  | String c s' =>
      match digit_of c with
      | Some d => read_digits (10 * acc + d)%Z s'
      | None => None
      end
  end.

Definition decimal_of_str (s : string) : option Z :=
  match s with
  | EmptyString => None
  | String c s' =>
      if (c =? "-")%char then
        match s' with
        | EmptyString => None
        | _ => Z.opp <$> read_digits 0 s'
        end
      else read_digits 0 s
  end.

(** ** Methods that format values or parse integers

    Two built-ins of the interpreter are left open: the text [str(v)] of a
    value that is not a string, and the integer [int(s)] reads from a
    string ([None] when it raises [ValueError]). *)
Section Runtime.

Variable py_repr : pyval → string.
Variable py_int_of_str : string → option Z.

(** A replacement field [{v}] of an f-string. *)
Definition py_format (v : pyval) : string :=
  match v with
  | PStr s => s
  | _ => py_repr v
  end.

(** [int(v)]. *)
Definition py_int (v : pyval) : outcome Z :=
  match v with
  | PInt n => Returns n
  | PBool b => Returns (if b then 1 else 0)%Z
  | PStr s => match py_int_of_str s with
              | Some n => Returns n
              | None => Raises ValueError
              end
  | _ => Raises TypeError
  end.

Definition initialize_from_video_session (video_session_data : gmap string pyval)
  : M VisualConsistencyManager unit :=
  let topic := default (PStr "") (video_session_data !! "topic") in
  let child_age := default PNone (video_session_data !! "child_age") in
  let child_interest :=
    default (PStr "") (video_session_data !! "child_interest") in
  _ ← set_attr with_setting (PStr ("Scene related to " +:+ py_format topic));
  _ ← (if truthy child_age then
         try_except
           (age ← lift (py_int child_age);
            if (age <? 6)%Z then
              set_attr with_art_style (PStr "simple, bold shapes, primary colors")
            else if (age <? 10)%Z then
              set_attr with_art_style
                (PStr "colorful cartoon illustration, friendly characters")
            else
              set_attr with_art_style
                (PStr "detailed illustration, realistic elements"))
           (λ _, mret tt)
       else mret tt);
  if truthy child_interest then
    set_attr with_atmosphere
      (PStr ("engaging, " +:+ py_format child_interest +:+ " themed"))
  else mret tt.

(** The clauses of the loop over [main_characters]. *)
Fixpoint character_clauses (items : list pyval) : outcome (list string) :=
  match items with
  | [] => Returns []
  | char :: rest =>
      n ← py_getitem char "name";
      d ← py_getitem char "description";
      clauses ← character_clauses rest;
      Returns ((py_format n +:+ ": " +:+ py_format d +:+ ".") :: clauses)
  end.

Definition generate_consistent_prompt (base_description segment : string)
    (is_video : bool) (previous_frame : option string)
  : M VisualConsistencyManager string :=
  let prompt_parts : list string := [] in
  summary ← attr previous_scene_summary;
  let prompt_parts :=
    if truthy summary && negb (segment =? "hook") then
      prompt_parts ++
        ["Continuing from previous scene: " +:+ py_format summary +:+ "."]
    else prompt_parts in
  let prompt_parts := prompt_parts ++ [base_description] in
  style ← attr art_style;
  let prompt_parts :=
    prompt_parts ++ ["Art style: " +:+ py_format style +:+ "."] in
  light ← attr lighting;
  atmos ← attr atmosphere;
  let prompt_parts :=
    prompt_parts ++ [py_format light +:+ ", " +:+ py_format atmos +:+ "."] in
  chars ← attr main_characters;
  prompt_parts ← (if truthy chars then
                    items ← lift (py_iter chars);
                    clauses ← lift (character_clauses items);
                    mret (prompt_parts ++ clauses)
                  else mret prompt_parts);
  place ← attr setting;
  let prompt_parts :=
    if truthy place then
      prompt_parts ++ ["Setting: " +:+ py_format place +:+ "."]
    else prompt_parts in
  let prompt_parts :=
    if is_video then
      let prompt_parts :=
        prompt_parts ++ ["Smooth motion, cinematic camera movement."] in
      match previous_frame with
      | Some frame =>
          if negb (frame =? "") then
            prompt_parts ++ ["Matching previous frame: " +:+ frame +:+ "."]
          else prompt_parts
      | None => prompt_parts
      end
    else prompt_parts in
  colors ← attr primary_colors;
  prompt_parts ← (if truthy colors then
                    first3 ← lift (py_slice3 colors);
                    colors_str ← lift (py_join ", " first3);
                    mret (prompt_parts ++
                            ["Color palette: " +:+ colors_str +:+ "."])
                  else mret prompt_parts);
  camera ← attr camera_style;
  comp ← attr composition;
  let prompt_parts :=
    prompt_parts ++ [py_format camera +:+ ", " +:+ py_format comp +:+ "."] in
  _ ← set_attr with_current_segment (PStr segment);
  mret (String.concat " " prompt_parts).

Definition enhance_video_prompt (base_prompt segment : string)
  : M VideoConsistencyHelper string :=
  manager ← reads consistency_manager;
  match manager with
  | None => mret base_prompt
  | Some _ =>
      try_except
        (frame ← reads previous_scene;
         enhanced ← on_manager
           (generate_consistent_prompt base_prompt segment true frame);
         _ ← assign (with_previous_scene
                       (Some ("Previous " +:+ segment +:+ " segment")));
         mret enhanced)
        (λ _, mret base_prompt)
  end.


(** The loop of [apply_video_consistency] over [prompts.items()], filling
    the dict of enhanced prompts. *)
Fixpoint enhance_each (items : list (string * string))
    (enhanced_prompts : gmap string string)
  : M VideoConsistencyHelper (gmap string string) :=
  match items with
  | [] => mret enhanced_prompts
  | (segment, prompt) :: rest =>
      enhanced ← enhance_video_prompt prompt segment;
      enhance_each rest (<[segment := enhanced]> enhanced_prompts)
  end.

(** [apply_video_consistency]; [prompts] are the items of the dict in
    insertion order, and the event loop is taken to run [initialize] to
    its end. *)
Definition apply_video_consistency (user session : string)
    (stored : outcome pyval) (prompts : list (string * string))
  : outcome (gmap string string) :=
  let helper := new_helper user session in
  let helper := (initialize stored helper).2 in
  (enhance_each prompts ∅ helper).1.

(** ** What [generate_consistent_prompt] assembles, as a function of the state *)

(** The continuity clause. *)
Definition continuity_clause (st : VisualState) : string :=
  "Continuing from previous scene: "
    +:+ py_format (previous_scene_summary st) +:+ ".".

(** The components from the base description on. *)
Definition scene_parts (st : VisualState) (base_description : string)
    (is_video : bool) (previous_frame : option string)
  : outcome (list string) :=
  char_clauses ← (if truthy (main_characters st) then
                    items ← py_iter (main_characters st);
                    character_clauses items
                  else Returns []);
  color_clause ← (if truthy (primary_colors st) then
                    first3 ← py_slice3 (primary_colors st);
                    colors_str ← py_join ", " first3;
                    Returns ["Color palette: " +:+ colors_str +:+ "."]
                  else Returns []);
  Returns
    ([base_description;
      "Art style: " +:+ py_format (art_style st) +:+ ".";
      py_format (lighting st) +:+ ", " +:+ py_format (atmosphere st) +:+ "."]
     ++ char_clauses
     ++ (if truthy (setting st)
         then ["Setting: " +:+ py_format (setting st) +:+ "."] else [])
     ++ (if is_video then
           "Smooth motion, cinematic camera movement."
           :: match previous_frame with
              | Some frame =>
                  if negb (frame =? "")
                  then ["Matching previous frame: " +:+ frame +:+ "."] else []
              | None => []
              end
         else [])
     ++ color_clause
     ++ [py_format (camera_style st) +:+ ", "
           +:+ py_format (composition st) +:+ "."]).

(** One step of symbolic execution: project the state, and reuse the
    cases already taken. *)
Ltac run_step :=
  cbn [visual_state openrouter_api_key app fst snd];
  repeat match goal with
         | H : ?c = _ |- context [?c] => rewrite H
         end.

Lemma generate_run base_description segment is_video previous_frame m :
  generate_consistent_prompt base_description segment is_video previous_frame m =
  match scene_parts (visual_state m) base_description is_video previous_frame with
  | Returns parts =>
      (Returns (String.concat " "
                  ((if truthy (previous_scene_summary (visual_state m))
                       && negb (segment =? "hook")
                    then [continuity_clause (visual_state m)] else [])
                   ++ parts)),
       on_visual_state (with_current_segment (PStr segment)) m)
  | Raises e => (Raises e, m)
  end.
Proof.
  destruct m as [key st].
  unfold generate_consistent_prompt, scene_parts, continuity_clause, attr,
    set_attr, reads, assign, lift, mbind, mret, M_bind, M_ret, outcome_bind,
    on_visual_state.
  repeat (run_step;
          match goal with
          | |- context [if ?c then _ else _] => destruct c eqn:?
          | |- context [match ?c with Returns _ => _ | Raises _ => _ end] =>
              destruct c eqn:?
          | |- context [match ?c with Some _ => _ | None => _ end] =>
              destruct c eqn:?
          end);
  run_step;
  repeat first [rewrite <- app_assoc | progress cbn [app]]; reflexivity.
Qed.


Lemma character_clauses_returns items :
  forallb is_character items = true →
  ∃ clauses, character_clauses items = Returns clauses.
Proof.
  induction items as [|char rest IH]; intros Hall; [by eexists|].
  cbn [forallb] in Hall. apply andb_prop in Hall as [Hchar Hrest].
  destruct (IH Hrest) as [clauses Hcl].
  destruct char as [| | | | |d]; try discriminate. cbn in Hchar.
  cbn [character_clauses py_getitem].
  destruct (d !! "name") as [[]|]; try discriminate.
  destruct (d !! "description") as [[]|]; try discriminate.
  rewrite Hcl. by eexists.
Qed.

Lemma all_strs_returns l :
  forallb is_str l = true → ∃ ss, all_strs l = Returns ss.
Proof.
  induction l as [|v l IH]; intros Hall; [by eexists|].
  cbn [forallb] in Hall. apply andb_prop in Hall as [Hv Hl].
  destruct (IH Hl) as [ss Hss].
  destruct v; try discriminate. cbn [all_strs]. rewrite Hss. by eexists.
Qed.

Lemma forallb_take {A} (p : A → bool) n l :
  forallb p l = true → forallb p (take n l) = true.
Proof.
  revert n. induction l as [|x l IH]; intros [|n] Hall; try reflexivity.
  cbn [forallb] in *. apply andb_prop in Hall as [Hx Hl].
  cbn [take forallb]. by rewrite Hx, IH.
Qed.

Lemma valid_state_fields st :
  valid_state st = true →
  is_list_of is_str (primary_colors st) = true
  ∧ is_list_of is_character (main_characters st) = true.
Proof.
  unfold valid_state. intros H.
  repeat (apply andb_prop in H as [H ?]). by split.
Qed.

Lemma scene_parts_returns st base_description is_video previous_frame :
  valid_state st = true →
  ∃ parts, scene_parts st base_description is_video previous_frame
           = Returns parts.
Proof.
  intros Hvalid. apply valid_state_fields in Hvalid as [Hcolors Hchars].
  unfold scene_parts.
  destruct (main_characters st) as [| | | |chars|]; try discriminate.
  destruct (primary_colors st) as [| | | |colors|]; try discriminate.
  cbn in Hcolors, Hchars.
  destruct (character_clauses_returns chars Hchars) as [clauses Hcl].
  destruct (all_strs_returns (take 3 colors) (forallb_take _ 3 _ Hcolors))
    as [ss Hss].
  unfold py_join. cbn [py_iter py_slice3 mbind outcome_bind].
  rewrite Hcl, Hss. destruct (truthy (PList chars)), (truthy (PList colors));
    by eexists.
Qed.

Lemma scene_parts_head st base_description is_video previous_frame parts :
  scene_parts st base_description is_video previous_frame = Returns parts →
  ∃ rest, parts = base_description :: rest.
Proof.
  unfold scene_parts, mbind, outcome_bind. intros H.
  repeat match type of H with
         | match ?c with _ => _ end = _ => destruct c; try discriminate
         end.
  all: injection H as <-; by eexists.
Qed.

Lemma scene_parts_summary summary st base_description is_video previous_frame :
  scene_parts (with_previous_scene_summary summary st)
    base_description is_video previous_frame
  = scene_parts st base_description is_video previous_frame.
Proof. reflexivity. Qed.

Lemma scene_parts_segment seg st base_description is_video previous_frame :
  scene_parts (with_current_segment seg st)
    base_description is_video previous_frame
  = scene_parts st base_description is_video previous_frame.
Proof. reflexivity. Qed.

(** C1.  With segment "hook" the prompt is the components from the base
    description on, joined by spaces: it does not depend on
    [previous_scene_summary] and starts with the base description, so no
    continuity clause is emitted.  With another segment and a non-empty
    summary the prompt is the continuity clause, a space, and then exactly
    what the "hook" call would have produced.  On a valid state the call
    returns. *)
Theorem continuity_clause_after_hook_only
    base_description segment is_video previous_frame m :
  ((generate_consistent_prompt base_description "hook" is_video previous_frame m).1
   = match scene_parts (visual_state m) base_description is_video previous_frame with
     | Returns parts => Returns (String.concat " " parts)
     | Raises e => Raises e
     end)
  ∧ (∀ summary,
       (generate_consistent_prompt base_description "hook" is_video previous_frame
          (on_visual_state (with_previous_scene_summary summary) m)).1
       = (generate_consistent_prompt base_description "hook" is_video
            previous_frame m).1)
  ∧ (∀ prompt,
       (generate_consistent_prompt base_description "hook" is_video
          previous_frame m).1 = Returns prompt →
       ∃ rest, prompt = String.concat " " (base_description :: rest))
  ∧ (segment ≠ "hook" →
     truthy (previous_scene_summary (visual_state m)) = true →
     (generate_consistent_prompt base_description segment is_video
        previous_frame m).1
     = match (generate_consistent_prompt base_description "hook" is_video
                previous_frame m).1 with
       | Returns prompt =>
           Returns (continuity_clause (visual_state m) +:+ " " +:+ prompt)
       | Raises e => Raises e
       end)
  ∧ (valid_state (visual_state m) = true →
     returned (generate_consistent_prompt base_description segment is_video
                 previous_frame m).1 = true).
Proof.
  split_and!.
  - rewrite generate_run. cbn [String.eqb Ascii.eqb Bool.eqb negb].
    rewrite andb_false_r.
    by destruct (scene_parts _ _ _ _).
  - intros summary. rewrite !generate_run.
    destruct m as [key st]. cbn [on_visual_state visual_state].
    rewrite scene_parts_summary. cbn [String.eqb Ascii.eqb Bool.eqb negb].
    rewrite !andb_false_r.
    by destruct (scene_parts _ _ _ _).
  - intros prompt. rewrite generate_run.
    cbn [String.eqb Ascii.eqb Bool.eqb negb]. rewrite andb_false_r.
    destruct (scene_parts _ _ _ _) as [parts|e] eqn:Hparts; [|discriminate].
    apply scene_parts_head in Hparts as [rest ->].
    cbn [fst app]. intros [= <-]. by eexists.
  - intros Hseg Hsum. rewrite !generate_run.
    cbn [String.eqb Ascii.eqb Bool.eqb negb]. rewrite andb_false_r, Hsum.
    apply String.eqb_neq in Hseg. rewrite Hseg.
    destruct (scene_parts _ _ _ _) as [parts|e] eqn:Hparts; [|reflexivity].
    apply scene_parts_head in Hparts as [rest ->]. reflexivity.
  - intros Hvalid. rewrite generate_run.
    destruct (scene_parts_returns _ base_description is_video previous_frame
                Hvalid) as [parts ->]. reflexivity.
Qed.


Lemma generate_raises_keeps_state
    base_description segment is_video previous_frame m e m' :
  generate_consistent_prompt base_description segment is_video previous_frame m
    = (Raises e, m') →
  m' = m.
Proof.
  rewrite generate_run. destruct (scene_parts _ _ _ _); congruence.
Qed.

Lemma generate_returns_valid base_description segment is_video previous_frame m :
  valid_state (visual_state m) = true →
  ∃ prompt,
    generate_consistent_prompt base_description segment is_video previous_frame m
    = (Returns prompt, on_visual_state (with_current_segment (PStr segment)) m).
Proof.
  intros Hvalid. rewrite generate_run.
  destruct (scene_parts_returns _ base_description is_video previous_frame
              Hvalid) as [parts ->]. by eexists.
Qed.

(** C7.  When the call returns, the manager is the one it was called on
    with [current_segment] set to the segment and nothing else changed,
    and the prompt is the one assembled from the state before the
    assignment: it is the same whatever [current_segment] held.  When the
    assembly raises, the assignment is never reached and the state is as
    before.  On a valid state the call returns. *)
Theorem current_segment_assigned_after_assembly
    base_description segment is_video previous_frame m :
  (∀ prompt m',
     generate_consistent_prompt base_description segment is_video
       previous_frame m = (Returns prompt, m') →
     current_segment (visual_state m') = PStr segment
     ∧ m' = on_visual_state (with_current_segment (PStr segment)) m
     ∧ ∀ old,
         (generate_consistent_prompt base_description segment is_video
            previous_frame (on_visual_state (with_current_segment old) m)).1
         = Returns prompt)
  ∧ (∀ e m',
       generate_consistent_prompt base_description segment is_video
         previous_frame m = (Raises e, m') →
       m' = m)
  ∧ (valid_state (visual_state m) = true →
     ∃ prompt,
       generate_consistent_prompt base_description segment is_video
         previous_frame m
       = (Returns prompt,
          on_visual_state (with_current_segment (PStr segment)) m)).
Proof.
  split_and!.
  - intros prompt m'. rewrite generate_run.
    destruct (scene_parts _ _ _ _) as [parts|e] eqn:Hparts; [|discriminate].
    intros [= <- <-]. split_and!; [by destruct m|reflexivity|].
    intros old. rewrite generate_run. destruct m as [key st].
    cbn [on_visual_state visual_state]. rewrite scene_parts_segment.
    cbn [visual_state] in Hparts. by rewrite Hparts.
  - intros e m'. apply generate_raises_keeps_state.
  - apply generate_returns_valid.
Qed.

Lemma enhance_run base_prompt segment h :
  enhance_video_prompt base_prompt segment h =
  match consistency_manager h with
  | None => (Returns base_prompt, h)
  | Some m =>
      match generate_consistent_prompt base_prompt segment true
              (previous_scene h) m with
      | (Returns enhanced, m') =>
          (Returns enhanced,
           with_previous_scene (Some ("Previous " +:+ segment +:+ " segment"))
             (with_consistency_manager (Some m') h))
      | (Raises e, m') =>
          (Returns base_prompt, with_consistency_manager (Some m') h)
      end
  end.
Proof.
  unfold enhance_video_prompt, try_except, on_manager, reads, assign, mbind,
    mret, M_bind, M_ret.
  destruct (consistency_manager h) as [m|] eqn:Hm; [|reflexivity].
  rewrite Hm.
  destruct (generate_consistent_prompt _ _ _ _ m) as [[enhanced|e] m'];
    reflexivity.
Qed.

(** C9.  Without a manager the base prompt comes back and the helper is
    untouched; when [generate_consistent_prompt] raises, the base prompt
    comes back as well; and the method returns in every case, that is, it
    never raises. *)
Theorem enhance_falls_back_to_base_prompt base_prompt segment h :
  (consistency_manager h = None →
   enhance_video_prompt base_prompt segment h = (Returns base_prompt, h))
  ∧ (∀ m e m',
       consistency_manager h = Some m →
       generate_consistent_prompt base_prompt segment true (previous_scene h) m
         = (Raises e, m') →
       (enhance_video_prompt base_prompt segment h).1 = Returns base_prompt)
  ∧ (∃ prompt h',
       enhance_video_prompt base_prompt segment h = (Returns prompt, h')).
Proof.
  rewrite enhance_run. split_and!.
  - by intros ->.
  - intros m e m' -> ->. reflexivity.
  - destruct (consistency_manager h) as [m|]; [|by eexists _, _].
    destruct (generate_consistent_prompt _ _ _ _ m) as [[enhanced|e] m'];
      by eexists _, _.
Qed.

(** C10.  With a manager in place: when [generate_consistent_prompt]
    returns, [previous_scene] becomes "Previous {segment} segment" and the
    enhanced prompt is returned; when it raises, the base prompt is
    returned and the helper, its [previous_scene] and the manager's
    state, is exactly as before the call. *)
Theorem enhance_updates_previous_scene_on_success_only
    base_prompt segment h m :
  consistency_manager h = Some m →
  match generate_consistent_prompt base_prompt segment true
          (previous_scene h) m with
  | (Returns enhanced, m') =>
      enhance_video_prompt base_prompt segment h
      = (Returns enhanced,
         mkHelper (user_id h) (session_id h) (Some m')
           (Some ("Previous " +:+ segment +:+ " segment")))
  | (Raises e, _) =>
      enhance_video_prompt base_prompt segment h = (Returns base_prompt, h)
      ∧ previous_scene (enhance_video_prompt base_prompt segment h).2
        = previous_scene h
  end.
Proof.
  intros Hm. rewrite enhance_run, Hm.
  destruct (generate_consistent_prompt _ _ _ _ m) as [[enhanced|e] m'] eqn:Hgen;
    [reflexivity|].
  apply generate_raises_keeps_state in Hgen as ->.
  destruct h as [u s cm p]. cbn in Hm. subst cm. by split.
Qed.


(** C6.  For the session of the example (with [int("4") = 4]) the three
    fields get the values of the spec; and whenever [int(child_age)]
    raises, the call still returns and [art_style] is what it was. *)
Theorem initialize_from_video_session_age_bands data m :
  (py_int_of_str "4" = Some 4%Z →
   data !! "topic" = Some (PStr "Photosynthesis") →
   data !! "child_age" = Some (PStr "4") →
   data !! "child_interest" = Some (PStr "dinosaurs") →
   ∃ m', initialize_from_video_session data m = (Returns tt, m')
         ∧ setting (visual_state m') = PStr "Scene related to Photosynthesis"
         ∧ art_style (visual_state m')
           = PStr "simple, bold shapes, primary colors"
         ∧ atmosphere (visual_state m') = PStr "engaging, dinosaurs themed")
  ∧ (returned (py_int (default PNone (data !! "child_age"))) = false →
     ∃ m', initialize_from_video_session data m = (Returns tt, m')
           ∧ art_style (visual_state m') = art_style (visual_state m)).
Proof.
  destruct m as [key st]. split.
  - intros Hint Htopic Hage Hinterest.
    unfold initialize_from_video_session, try_except, set_attr, assign, lift,
      mbind, mret, M_bind, M_ret.
    rewrite Htopic, Hage, Hinterest. cbn. rewrite Hint. cbn.
    eexists. split; [reflexivity|]. by split_and!.
  - intros Hage.
    unfold initialize_from_video_session, try_except, set_attr, assign, lift,
      mbind, mret, M_bind, M_ret.
    destruct (py_int (default PNone (data !! "child_age"))) as [age|e];
      [discriminate|].
    destruct (truthy (default PNone (data !! "child_age")));
      destruct (truthy (default (PStr "") (data !! "child_interest")));
      cbn; eexists; split; reflexivity.
Qed.


Lemma from_dict_to_dict s : from_dict (to_dict s) = Returns (post_init s).
Proof. destruct s. vm_compute. reflexivity. Qed.

Lemma post_init_valid s : valid_state s = true → post_init s = s.
Proof.
  intros Hvalid. apply valid_state_fields in Hvalid as [Hcolors Hchars].
  destruct s as [url colors style chars place light atmos cam comp seg summ sd].
  cbn in Hcolors, Hchars.
  destruct colors; try discriminate. destruct chars; try discriminate.
  reflexivity.
Qed.

Lemma post_init_same_prompt
    base_description segment is_video previous_frame key s :
  (generate_consistent_prompt base_description segment is_video previous_frame
     (mkManager key (post_init s))).1
  = (generate_consistent_prompt base_description segment is_video
       previous_frame (mkManager key s)).1.
Proof.
  rewrite !generate_run. cbn [visual_state].
  assert (scene_parts (post_init s) base_description is_video previous_frame
          = scene_parts s base_description is_video previous_frame) as ->.
  { destruct s as [url colors style chars place light atmos cam comp seg summ sd].
    destruct colors, chars; reflexivity. }
  assert (previous_scene_summary (post_init s) = previous_scene_summary s)
    as Hsumm.
  { destruct s as [url colors style chars place light atmos cam comp seg summ sd].
    destruct colors, chars; reflexivity. }
  unfold continuity_clause. rewrite Hsumm.
  by destruct (scene_parts s _ _ _).
Qed.

(** C2.  A valid state survives [from_dict (to_dict s)] unchanged, field
    by field, and the prompt generated from the state read back is the one
    generated from [s].  The second half needs no validity: every state
    can be written and read back, and the prompts (or the exception)
    agree. *)
Theorem snapshot_round_trip s :
  (valid_state s = true → from_dict (to_dict s) = Returns s)
  ∧ ∃ s', from_dict (to_dict s) = Returns s'
          ∧ ∀ base_description segment is_video previous_frame key,
              (generate_consistent_prompt base_description segment is_video
                 previous_frame (mkManager key s')).1
              = (generate_consistent_prompt base_description segment is_video
                   previous_frame (mkManager key s)).1.
Proof.
  split.
  - intros Hvalid. by rewrite from_dict_to_dict, post_init_valid.
  - exists (post_init s). split; [apply from_dict_to_dict|].
    intros. apply post_init_same_prompt.
Qed.

(** ** Further properties of prompt generation *)

Lemma on_visual_state_segment_twice seg m :
  on_visual_state (with_current_segment seg)
    (on_visual_state (with_current_segment seg) m)
  = on_visual_state (with_current_segment seg) m.
Proof. by destruct m. Qed.

(** X1.  A call that returned can be repeated: on the state it left, the
    same arguments give the same prompt and leave the state as it is. *)
Theorem generate_prompt_repeatable
    base_description segment is_video previous_frame m prompt m' :
  generate_consistent_prompt base_description segment is_video previous_frame m
    = (Returns prompt, m') →
  generate_consistent_prompt base_description segment is_video previous_frame m'
    = (Returns prompt, m').
Proof.
  rewrite generate_run.
  destruct (scene_parts _ _ _ _) as [parts|e] eqn:Hparts; [|discriminate].
  intros [= <- <-]. rewrite generate_run. destruct m as [key st].
  cbn [on_visual_state visual_state] in *.
  rewrite scene_parts_segment, Hparts. reflexivity.
Qed.

Lemma scene_parts_take3 st colors base_description is_video previous_frame :
  scene_parts (with_primary_colors (PList (take 3 colors)) st)
    base_description is_video previous_frame
  = scene_parts (with_primary_colors (PList colors) st)
      base_description is_video previous_frame.
Proof.
  unfold scene_parts.
  cbn [with_primary_colors primary_colors main_characters art_style lighting
       atmosphere setting camera_style composition py_slice3].
  rewrite take_take, Nat.min_id.
  by destruct colors.
Qed.

(** X2.  Only the first three entries of the palette matter: dropping the
    others from [primary_colors] changes neither the prompt nor, on a
    malformed palette, the exception. *)
Theorem palette_uses_first_three_colors
    base_description segment is_video previous_frame m colors :
  primary_colors (visual_state m) = PList colors →
  (generate_consistent_prompt base_description segment is_video previous_frame
     (on_visual_state (with_primary_colors (PList (take 3 colors))) m)).1
  = (generate_consistent_prompt base_description segment is_video
       previous_frame m).1.
Proof.
  intros Hcolors. rewrite !generate_run. destruct m as [key st].
  cbn [on_visual_state visual_state] in *.
  rewrite scene_parts_take3.
  assert (with_primary_colors (PList colors) st = st) as ->.
  { destruct st. cbn in Hcolors. by subst. }
  cbn [with_primary_colors previous_scene_summary].
  unfold continuity_clause. cbn [with_primary_colors previous_scene_summary].
  by destruct (scene_parts _ _ _ _).
Qed.

(** X3.  The previous frame only counts for a video, and only when it is
    not empty: without [is_video] every [previous_frame] gives the prompt
    of [None], and for a video the empty string does. *)
Theorem previous_frame_only_for_video
    base_description segment previous_frame m :
  (generate_consistent_prompt base_description segment false previous_frame m).1
  = (generate_consistent_prompt base_description segment false None m).1
  ∧ (generate_consistent_prompt base_description segment true (Some "") m).1
    = (generate_consistent_prompt base_description segment true None m).1.
Proof.
  rewrite !generate_run. split; reflexivity.
Qed.

(** X4.  The prompt never shows the seed, the reference image or the
    segment of the previous call: whatever these three fields hold, the
    prompt (or the exception) is the same. *)
Theorem prompt_ignores_seed_reference_and_segment
    base_description segment is_video previous_frame m sd url seg :
  (generate_consistent_prompt base_description segment is_video previous_frame
     (on_visual_state
        (λ st, with_seed sd
                 (with_reference_image_url url (with_current_segment seg st)))
        m)).1
  = (generate_consistent_prompt base_description segment is_video
       previous_frame m).1.
Proof.
  rewrite !generate_run. destruct m as [key st].
  cbn [on_visual_state visual_state].
  change (scene_parts (with_seed sd _) base_description is_video previous_frame)
    with (scene_parts st base_description is_video previous_frame).
  by destruct (scene_parts _ _ _ _).
Qed.

Lemma string_app_assoc (a b c : string) : (a +:+ b) +:+ c = a +:+ b +:+ c.
Proof.
  induction a as [|x a IH]; [reflexivity|].
  change (String x ((a +:+ b) +:+ c) = String x (a +:+ b +:+ c)).
  by rewrite IH.
Qed.

(** X5.  [update_scene_context] replaces the summary and nothing else.
    After a non-empty summary [s], a prompt for a segment other than
    "hook" is "Continuing from previous scene: s." followed by what the
    manager would have produced for "hook" before the update; after the
    empty summary the clause is gone for every segment. *)
Theorem update_scene_context_drives_the_clause
    scene_description base_description segment is_video previous_frame m :
  let m' := on_visual_state
              (with_previous_scene_summary (PStr scene_description)) m in
  update_scene_context scene_description m = (Returns tt, m')
  ∧ (scene_description ≠ "" → segment ≠ "hook" →
     (generate_consistent_prompt base_description segment is_video
        previous_frame m').1
     = match (generate_consistent_prompt base_description "hook" is_video
                previous_frame m).1 with
       | Returns prompt =>
           Returns ("Continuing from previous scene: " +:+ scene_description
                    +:+ ". " +:+ prompt)
       | Raises e => Raises e
       end)
  ∧ (scene_description = "" →
     (generate_consistent_prompt base_description segment is_video
        previous_frame m').1
     = (generate_consistent_prompt base_description "hook" is_video
          previous_frame m).1).
Proof.
  intros m'. subst m'. split_and!; [reflexivity| |].
  - intros Hs Hseg. rewrite !generate_run. destruct m as [key st].
    cbn [on_visual_state visual_state].
    rewrite scene_parts_summary.
    cbn [with_previous_scene_summary previous_scene_summary truthy
         String.eqb Ascii.eqb Bool.eqb negb].
    apply String.eqb_neq in Hs, Hseg. rewrite Hs, Hseg, andb_false_r.
    destruct (scene_parts _ _ _ _) as [parts|e] eqn:Hparts; [|reflexivity].
    apply scene_parts_head in Hparts as [rest ->].
    cbn [negb andb fst app String.concat continuity_clause
         with_previous_scene_summary previous_scene_summary py_format].
    unfold continuity_clause.
    cbn [with_previous_scene_summary previous_scene_summary py_format].
    rewrite !string_app_assoc. reflexivity.
  - intros ->. rewrite !generate_run. destruct m as [key st].
    cbn [on_visual_state visual_state].
    rewrite scene_parts_summary.
    cbn [with_previous_scene_summary previous_scene_summary truthy
         String.eqb Ascii.eqb Bool.eqb negb andb].
    rewrite andb_false_r.
    by destruct (scene_parts _ _ _ _).
Qed.

(** ** Further properties of [initialize_from_video_session] *)

Lemma initialize_session_run data m :
  let child_age := default PNone (data !! "child_age") in
  let child_interest := default (PStr "") (data !! "child_interest") in
  initialize_from_video_session data m =
  (Returns tt,
   on_visual_state
     (λ st,
        let st :=
          with_setting
            (PStr ("Scene related to "
                   +:+ py_format (default (PStr "") (data !! "topic")))) st in
        let st :=
          if truthy child_age then
            match py_int child_age with
            | Returns age =>
                with_art_style
                  (PStr (if (age <? 6)%Z
                         then "simple, bold shapes, primary colors"
                         else if (age <? 10)%Z
                         then "colorful cartoon illustration, friendly characters"
                         else "detailed illustration, realistic elements")) st
            | Raises _ => st
            end
          else st in
        if truthy child_interest then
          with_atmosphere
            (PStr ("engaging, " +:+ py_format child_interest +:+ " themed")) st
        else st)
     m).
Proof.
  intros child_age child_interest. subst child_age child_interest.
  destruct m as [key st].
  unfold initialize_from_video_session, try_except, set_attr, assign, lift,
    mbind, mret, M_bind, M_ret.
  destruct (truthy (default PNone (data !! "child_age")));
    [destruct (py_int (default PNone (data !! "child_age"))) as [age|e];
     [destruct (age <? 6)%Z; [|destruct (age <? 10)%Z]|]|];
    destruct (truthy (default (PStr "") (data !! "child_interest")));
    reflexivity.
Qed.

(** X6.  Whatever the session data holds, the call returns, and it
    changes at most [setting], [art_style] and [atmosphere]: [setting] is
    always rewritten from the topic (from the empty one when there is
    none), the other nine fields and the API key stay. *)
Theorem initialize_from_video_session_frame data m :
  ∃ m',
    initialize_from_video_session data m = (Returns tt, m')
    ∧ openrouter_api_key m' = openrouter_api_key m
    ∧ setting (visual_state m')
      = PStr ("Scene related to "
              +:+ py_format (default (PStr "") (data !! "topic")))
    ∧ reference_image_url (visual_state m')
      = reference_image_url (visual_state m)
    ∧ primary_colors (visual_state m') = primary_colors (visual_state m)
    ∧ main_characters (visual_state m') = main_characters (visual_state m)
    ∧ lighting (visual_state m') = lighting (visual_state m)
    ∧ camera_style (visual_state m') = camera_style (visual_state m)
    ∧ composition (visual_state m') = composition (visual_state m)
    ∧ current_segment (visual_state m') = current_segment (visual_state m)
    ∧ previous_scene_summary (visual_state m')
      = previous_scene_summary (visual_state m)
    ∧ seed (visual_state m') = seed (visual_state m).
Proof.
  eexists. split; [apply initialize_session_run|].
  destruct m as [key st]. cbn [on_visual_state visual_state openrouter_api_key].
  destruct (truthy (default PNone (data !! "child_age")));
    [destruct (py_int (default PNone (data !! "child_age")))|];
    destruct (truthy (default (PStr "") (data !! "child_interest")));
    by split_and!.
Qed.

(** X7.  The age bands cover every integer: for a [child_age] that is
    truthy and reads as the integer [age], the style is the one for
    [age < 6], for [6 <= age < 10] or for [10 <= age]; negative ages fall
    into the first band. *)
Theorem initialize_from_video_session_bands data m age :
  truthy (default PNone (data !! "child_age")) = true →
  py_int (default PNone (data !! "child_age")) = Returns age →
  art_style (visual_state (initialize_from_video_session data m).2)
  = PStr (if (age <? 6)%Z then "simple, bold shapes, primary colors"
          else if (age <? 10)%Z
          then "colorful cartoon illustration, friendly characters"
          else "detailed illustration, realistic elements").
Proof.
  intros Htruthy Hint. rewrite initialize_session_run.
  destruct m as [key st]. cbn [snd on_visual_state visual_state].
  rewrite Htruthy, Hint.
  by destruct (truthy (default (PStr "") (data !! "child_interest"))).
Qed.

(** X8.  A falsy [child_age] (a missing key, [None], the empty string,
    but also the integer 0) is not looked at: [art_style] stays.  A falsy
    [child_interest] leaves [atmosphere] as it is. *)
Theorem initialize_from_video_session_skips_falsy data m :
  (truthy (default PNone (data !! "child_age")) = false →
   art_style (visual_state (initialize_from_video_session data m).2)
   = art_style (visual_state m))
  ∧ (truthy (default (PStr "") (data !! "child_interest")) = false →
     atmosphere (visual_state (initialize_from_video_session data m).2)
     = atmosphere (visual_state m)).
Proof.
  rewrite initialize_session_run.
  destruct m as [key st]. cbn [snd on_visual_state visual_state].
  split; intros ->.
  - by destruct (truthy (default (PStr "") (data !! "child_interest"))).
  - destruct (truthy (default PNone (data !! "child_age")));
      [destruct (py_int (default PNone (data !! "child_age")))|];
      reflexivity.
Qed.

(** ** The helper: loading, enhancing in sequence *)

Lemma initialize_run stored h :
  initialize stored h =
  match stored with
  | Returns (PDict state_dict) =>
      match from_dict state_dict with
      | Returns s =>
          (Returns true, with_consistency_manager (Some (mkManager None s)) h)
      | Raises _ =>
          (Returns false, with_consistency_manager (Some (new_manager None)) h)
      end
  | _ => (Returns false, with_consistency_manager (Some (new_manager None)) h)
  end.
Proof.
  destruct h as [u s cm p].
  unfold initialize, try_except, on_manager, lift, assign, mbind, mret,
    M_bind, M_ret, with_consistency_manager.
  destruct stored as [[| | | | |state_dict]|e]; try reflexivity.
  cbn [consistency_manager user_id session_id previous_scene].
  unfold load_state, lift, assign, mbind, M_bind.
  by destruct (from_dict state_dict).
Qed.

Lemma valid_state_with_current_segment segment st :
  valid_state st = true →
  valid_state (with_current_segment (PStr segment) st) = true.
Proof.
  unfold valid_state.
  cbn [with_current_segment reference_image_url primary_colors art_style
       main_characters setting lighting atmosphere camera_style composition
       current_segment previous_scene_summary seed is_str].
  rewrite !andb_true_iff. intros. destruct_and!. by split_and!.
Qed.

(** X9.  Two calls of [enhance_video_prompt] on a helper whose manager
    holds a valid state: both return, the first prompt is generated with
    the helper's previous scene, the second with "Previous {segment}
    segment" for the segment of the first call, on the state the first
    call left. *)
Theorem enhance_passes_previous_segment_on
    prompt1 segment1 prompt2 segment2 h m :
  consistency_manager h = Some m →
  valid_state (visual_state m) = true →
  ∃ enhanced1 enhanced2 m1 h1 h2,
    enhance_video_prompt prompt1 segment1 h = (Returns enhanced1, h1)
    ∧ enhance_video_prompt prompt2 segment2 h1 = (Returns enhanced2, h2)
    ∧ generate_consistent_prompt prompt1 segment1 true (previous_scene h) m
      = (Returns enhanced1, m1)
    ∧ (generate_consistent_prompt prompt2 segment2 true
         (Some ("Previous " +:+ segment1 +:+ " segment")) m1).1
      = Returns enhanced2
    ∧ previous_scene h2 = Some ("Previous " +:+ segment2 +:+ " segment").
Proof.
  intros Hm Hvalid.
  destruct (generate_returns_valid prompt1 segment1 true (previous_scene h) m
              Hvalid) as [enhanced1 Hgen1].
  set (m1 := on_visual_state (with_current_segment (PStr segment1)) m) in *.
  assert (valid_state (visual_state m1) = true) as Hvalid1.
  { destruct m as [key st]. by apply valid_state_with_current_segment. }
  destruct (generate_returns_valid prompt2 segment2 true
              (Some ("Previous " +:+ segment1 +:+ " segment")) m1 Hvalid1)
    as [enhanced2 Hgen2].
  eexists enhanced1, enhanced2, m1, _, _.
  rewrite enhance_run, Hm, Hgen1. split; [reflexivity|].
  rewrite enhance_run. cbn [with_previous_scene with_consistency_manager
                            consistency_manager previous_scene].
  rewrite Hgen2. by split_and!.
Qed.

Lemma enhance_returns base_prompt segment h :
  ∃ prompt h', enhance_video_prompt base_prompt segment h = (Returns prompt, h').
Proof.
  rewrite enhance_run. destruct (consistency_manager h) as [m|];
    [|by eexists _, _].
  destruct (generate_consistent_prompt _ _ _ _ m) as [[enhanced|e] m'];
    by eexists _, _.
Qed.

Lemma enhance_each_keys items enhanced_prompts h :
  ∃ result h',
    enhance_each items enhanced_prompts h = (Returns result, h')
    ∧ dom result = dom enhanced_prompts ∪ list_to_set items.*1.
Proof.
  revert enhanced_prompts h.
  induction items as [|[segment prompt] rest IH]; intros enhanced_prompts h.
  - eexists _, _. split; [reflexivity|].
    cbn. by rewrite (right_id_L ∅ (∪)).
  - destruct (enhance_returns prompt segment h) as (enhanced & h1 & Hrun).
    destruct (IH (<[segment := enhanced]> enhanced_prompts) h1)
      as (result & h' & Hrest & Hdom).
    exists result, h'. cbn [enhance_each]. unfold mbind, M_bind.
    rewrite Hrun, Hrest. split; [reflexivity|].
    rewrite Hdom, dom_insert_L. cbn [fmap list_fmap fst list_to_set foldr].
    by rewrite (comm_L (∪) {[segment]}), <- (assoc_L (∪)).
Qed.

(** X10.  [apply_video_consistency] returns a dict with exactly the
    segments it was given, whatever the storage answered and whatever
    state was loaded: no prompt is dropped and no exception escapes the
    loop. *)
Theorem apply_video_consistency_keeps_segments user session stored prompts :
  ∃ result,
    apply_video_consistency user session stored prompts = Returns result
    ∧ dom result = list_to_set prompts.*1.
Proof.
  unfold apply_video_consistency.
  destruct (enhance_each_keys prompts ∅
              (initialize stored (new_helper user session)).2)
    as (result & h' & Hrun & Hdom).
  exists result. rewrite Hrun. split; [reflexivity|].
  by rewrite Hdom, dom_empty_L, (left_id_L ∅ (∪)).
Qed.

Lemma scene_parts_raises_for_all_arguments
    st base_description is_video previous_frame e
    base_description' is_video' previous_frame' :
  scene_parts st base_description is_video previous_frame = Raises e →
  scene_parts st base_description' is_video' previous_frame' = Raises e.
Proof.
  unfold scene_parts, mbind, outcome_bind.
  destruct (if truthy (main_characters st) then _ else _) as [clauses|e1];
    [|done].
  destruct (if truthy (primary_colors st) then _ else _) as [clause|e2];
    done.
Qed.

Lemma enhance_each_on_raising_state items enhanced_prompts h m
    base_description is_video previous_frame e :
  consistency_manager h = Some m →
  scene_parts (visual_state m) base_description is_video previous_frame
    = Raises e →
  enhance_each items enhanced_prompts h
  = (Returns (list_to_map (reverse items) ∪ enhanced_prompts), h).
Proof.
  intros Hm Hraise. revert enhanced_prompts.
  induction items as [|[segment prompt] rest IH]; intros enhanced_prompts.
  - cbn. by rewrite (left_id_L ∅ (∪)).
  - cbn [enhance_each]. unfold mbind, M_bind.
    rewrite enhance_run, Hm, generate_run.
    rewrite (scene_parts_raises_for_all_arguments _ _ _ _ _ prompt true
               (previous_scene h) Hraise).
    assert (with_consistency_manager (Some m) h = h) as ->.
    { destruct h. cbn in Hm. by subst. }
    rewrite IH, reverse_cons, list_to_map_app. cbn [list_to_map foldr].
    rewrite insert_empty, <- (assoc_L (∪)), <- insert_union_singleton_l.
    reflexivity.
Qed.

(** X11.  When the loaded state is one on which prompt assembly raises,
    [apply_video_consistency] hands every prompt back unchanged. *)
Theorem apply_video_consistency_unenhanced
    user session state_dict s prompts base_description segment is_video
    previous_frame e :
  from_dict state_dict = Returns s →
  (generate_consistent_prompt base_description segment is_video previous_frame
     (mkManager None s)).1 = Raises e →
  NoDup prompts.*1 →
  apply_video_consistency user session (Returns (PDict state_dict)) prompts
  = Returns (list_to_map prompts).
Proof.
  intros Hload Hraise Hnodup. unfold apply_video_consistency.
  rewrite initialize_run, Hload. cbn [snd].
  rewrite generate_run in Hraise. cbn [visual_state] in Hraise.
  destruct (scene_parts s base_description is_video previous_frame)
    as [parts|e'] eqn:Hparts; [discriminate|].
  erewrite (enhance_each_on_raising_state prompts ∅ _ (mkManager None s));
    [|reflexivity|exact Hparts].
  cbn [fst]. rewrite (right_id_L ∅ (∪)). f_equal.
  symmetry. apply list_to_map_proper; [done|].
  symmetry. apply reverse_Permutation.
Qed.

(** X12.  Whenever [initialize] reports failure (the storage raised, the
    snapshot is no dict, or it has a key that is no field),
    [apply_video_consistency] gives what it gives for the empty snapshot:
    prompts enhanced from the default state. *)
Theorem apply_video_consistency_defaults user session stored prompts :
  (initialize stored (new_helper user session)).1 = Returns false →
  apply_video_consistency user session stored prompts
  = apply_video_consistency user session (Returns (PDict ∅)) prompts.
Proof.
  unfold apply_video_consistency. rewrite !initialize_run.
  destruct stored as [[| | | | |state_dict]|e]; try reflexivity.
  destruct (from_dict state_dict); [discriminate|reflexivity].
Qed.

End Runtime.

(** ** Characters *)

Lemma upsert_fresh name description l :
  name ∉ l.*1 → upsert name description l = l ++ [(name, description)].
Proof.
  induction l as [|[n x] rest IH]; intros Hfresh; [reflexivity|].
  cbn [upsert fmap list_fmap fst] in *.
  apply not_elem_of_cons in Hfresh as [Hne Hrest].
  destruct (String.eqb_spec n name) as [->|_]; [done|].
  by rewrite IH.
Qed.

Lemma upsert_names_present name description l :
  name ∈ l.*1 → (upsert name description l).*1 = l.*1.
Proof.
  induction l as [|[n x] rest IH]; intros Hin; [by apply elem_of_nil in Hin|].
  cbn [upsert]. destruct (String.eqb_spec n name) as [->|Hne]; [reflexivity|].
  cbn [fmap list_fmap fst] in *. apply elem_of_cons in Hin as [->|Hin]; [done|].
  f_equal. by apply IH.
Qed.

Lemma upsert_NoDup name description l :
  NoDup l.*1 → NoDup (upsert name description l).*1.
Proof.
  intros Hnodup. destruct (decide (name ∈ l.*1)) as [Hin|Hfresh].
  - by rewrite upsert_names_present.
  - rewrite upsert_fresh, fmap_app by done. cbn.
    apply NoDup_app. split_and!; [done| |apply NoDup_singleton].
    intros n Hn ->%list_elem_of_singleton. done.
Qed.

Lemma filter_name_fresh name (l : list (string * string)) :
  name ∉ l.*1 → filter (λ e, e.1 = name) l = [].
Proof.
  induction l as [|[n x] rest IH]; intros Hfresh; [reflexivity|].
  cbn [fmap list_fmap fst] in Hfresh.
  apply not_elem_of_cons in Hfresh as [Hne Hrest].
  rewrite filter_cons_False by (cbn; congruence). by apply IH.
Qed.

Lemma upsert_one_entry name description l :
  NoDup l.*1 →
  filter (λ e, e.1 = name) (upsert name description l) = [(name, description)].
Proof.
  induction l as [|[n x] rest IH]; intros Hnodup.
  - cbn [upsert]. by rewrite filter_cons_True.
  - cbn [fmap list_fmap fst] in Hnodup. apply NoDup_cons in Hnodup as [Hn Hrest].
    cbn [upsert]. destruct (String.eqb_spec n name) as [->|Hne].
    + rewrite filter_cons_True by done. by rewrite filter_name_fresh.
    + rewrite filter_cons_False by (cbn; congruence). by apply IH.
Qed.

Lemma is_character_entry v :
  is_character v = true → ∃ e, char_entry v = Some e.
Proof.
  destruct v as [| | | | |d]; try discriminate. cbn.
  destruct (d !! "name") as [[]|]; try discriminate.
  destruct (d !! "description") as [[]|]; try discriminate. by eexists.
Qed.

Lemma entries_length items :
  forallb is_character items = true →
  length (omap char_entry items) = length items.
Proof.
  induction items as [|v items IH]; intros Hall; [reflexivity|].
  cbn [forallb] in Hall. apply andb_prop in Hall as [Hv Hitems].
  destruct (is_character_entry v Hv) as [e He].
  cbn [omap list_omap]. rewrite He. cbn. f_equal. by apply IH.
Qed.

(** The loop of [define_character] on a well-formed list: it finds the
    name exactly when the name is there, and then the list it leaves is
    well formed, as long as before, and its pairs are the upsert. *)
Lemma update_existing_run items name description :
  forallb is_character items = true →
  ∃ r, update_existing items name description = Returns r
       ∧ match r with
         | Some items' =>
             name ∈ (omap char_entry items).*1
             ∧ forallb is_character items' = true
             ∧ length items' = length items
             ∧ omap char_entry items'
               = upsert name description (omap char_entry items)
         | None => name ∉ (omap char_entry items).*1
         end.
Proof.
  induction items as [|char rest IH]; intros Hall.
  - exists None. split; [reflexivity|]. apply not_elem_of_nil.
  - cbn [forallb] in Hall. apply andb_prop in Hall as [Hchar Hrest].
    destruct (IH Hrest) as (r & Hr & Hspec). clear IH.
    destruct char as [| | | | |d]; try discriminate. cbn in Hchar.
    destruct (d !! "name") as [[| | |n| |]|] eqn:Hname; try discriminate.
    destruct (d !! "description") as [[| | |x| |]|] eqn:Hdesc; try discriminate.
    cbn [update_existing py_getitem py_setitem py_eq_str mbind outcome_bind
         omap list_omap char_entry].
    rewrite Hname, Hdesc.
    cbn [py_eq_str mbind outcome_bind fmap list_fmap fst upsert].
    destruct (String.eqb_spec n name) as [->|Hne].
    + eexists. split; [reflexivity|]. cbn [forallb is_character length].
      cbn [omap list_omap char_entry].
      rewrite (lookup_insert_ne d "description" "name") by done.
      rewrite lookup_insert_eq, Hname, Hrest.
      split_and!; [apply elem_of_cons; by left|reflexivity|reflexivity|].
      reflexivity.
    + rewrite Hr. destruct r as [items'|]; cbn [option_map].
      * destruct Hspec as (Hin & Hvalid & Hlen & Hentries).
        eexists. split; [reflexivity|].
        cbn [option_map forallb is_character length].
        rewrite Hname, Hdesc, Hvalid, Hlen.
        split_and!; [apply elem_of_cons; by right|reflexivity|reflexivity|].
        cbn [omap list_omap char_entry]. rewrite Hname, Hdesc.
        cbn. by rewrite Hentries.
      * eexists. split; [reflexivity|]. cbn [option_map].
        apply not_elem_of_cons. by split.
Qed.

(** [define_character] on a state whose characters are well formed. *)
Lemma define_character_run name description m :
  is_list_of is_character (main_characters (visual_state m)) = true →
  ∃ chars',
    define_character name description m
    = (Returns tt, on_visual_state (with_main_characters chars') m)
    ∧ is_list_of is_character chars' = true
    ∧ entries chars'
      = upsert name description (entries (main_characters (visual_state m))).
Proof.
  destruct m as [key st]. cbn [visual_state]. intros Hvalid.
  unfold define_character, attr, set_attr, reads, assign, lift, mbind, mret,
    M_bind, M_ret. cbn [visual_state].
  destruct (main_characters st) as [| | | |items|]; try discriminate.
  cbn in Hvalid. cbn [py_iter].
  destruct (update_existing_run items name description Hvalid)
    as (r & -> & Hspec).
  destruct r as [items'|].
  - destruct Hspec as (_ & Hvalid' & _ & Hentries).
    exists (PList items'). by split_and!.
  - cbn [py_append]. exists (PList (items ++ [character name description])).
    split_and!; [reflexivity| |].
    + cbn. rewrite forallb_app, Hvalid. reflexivity.
    + cbn [entries]. rewrite omap_app. cbn. by rewrite upsert_fresh.
Qed.

Lemma define_all_run calls m :
  is_list_of is_character (main_characters (visual_state m)) = true →
  NoDup (character_names m) →
  ∃ m', define_all calls m = (Returns tt, m')
        ∧ is_list_of is_character (main_characters (visual_state m')) = true
        ∧ NoDup (character_names m').
Proof.
  revert m. induction calls as [|[name description] rest IH];
    intros m Hvalid Hnodup; [by exists m|].
  destruct (define_character_run name description m Hvalid)
    as (chars' & Hrun & Hvalid' & Hentries).
  cbn [define_all]. unfold mbind, M_bind. rewrite Hrun.
  apply IH.
  - by destruct m.
  - unfold character_names. destruct m as [key st].
    cbn [on_visual_state visual_state with_main_characters main_characters].
    rewrite Hentries. by apply upsert_NoDup.
Qed.

Lemma upsert_twice name d1 d2 l :
  upsert name d2 (upsert name d1 l) = upsert name d2 l.
Proof.
  induction l as [|[n x] rest IH]; cbn [upsert].
  - by rewrite String.eqb_refl.
  - destruct (n =? name) eqn:Hn; cbn [upsert]; rewrite Hn; [done|].
    by rewrite IH.
Qed.

Lemma define_character_twice name d1 d2 m :
  is_list_of is_character (main_characters (visual_state m)) = true →
  ∃ m1 m2,
    define_character name d1 m = (Returns tt, m1)
    ∧ define_character name d2 m1 = (Returns tt, m2)
    ∧ is_list_of is_character (main_characters (visual_state m2)) = true
    ∧ entries (main_characters (visual_state m1))
      = upsert name d1 (entries (main_characters (visual_state m)))
    ∧ entries (main_characters (visual_state m2))
      = upsert name d2 (entries (main_characters (visual_state m))).
Proof.
  intros Hvalid.
  destruct (define_character_run name d1 m Hvalid)
    as (chars1 & Hrun1 & Hvalid1 & Hentries1).
  set (m1 := on_visual_state (with_main_characters chars1) m) in *.
  assert (main_characters (visual_state m1) = chars1) as Hm1 by by destruct m.
  destruct (define_character_run name d2 m1) as (chars2 & Hrun2 & Hvalid2 & Hentries2);
    [by rewrite Hm1|].
  exists m1, (on_visual_state (with_main_characters chars2) m1).
  assert (main_characters
            (visual_state (on_visual_state (with_main_characters chars2) m1))
          = chars2) as Hm2 by by destruct m.
  rewrite Hm1, Hm2. split_and!; try done.
  by rewrite Hentries2, Hm1, Hentries1, upsert_twice.
Qed.

Lemma define_all_fresh_names calls m :
  is_list_of is_character (main_characters (visual_state m)) = true →
  NoDup calls.*1 →
  (∀ name, name ∈ calls.*1 → name ∉ character_names m) →
  ∃ m', define_all calls m = (Returns tt, m')
        ∧ entries (main_characters (visual_state m'))
          = entries (main_characters (visual_state m)) ++ calls.
Proof.
  revert m. induction calls as [|[name description] rest IH];
    intros m Hvalid Hnodup Hfresh.
  - exists m. by rewrite app_nil_r.
  - cbn [fmap list_fmap fst] in Hnodup, Hfresh.
    apply NoDup_cons in Hnodup as [Hname Hrest].
    destruct (define_character_run name description m Hvalid)
      as (chars' & Hrun & Hvalid' & Hentries).
    rewrite upsert_fresh in Hentries by (apply Hfresh, elem_of_cons; by left).
    cbn [define_all]. unfold mbind, M_bind. rewrite Hrun.
    set (m1 := on_visual_state (with_main_characters chars') m) in *.
    assert (main_characters (visual_state m1) = chars') as Hm1 by by destruct m.
    destruct (IH m1) as (m' & Hrun' & Hentries'); [by rewrite Hm1|done| |].
    + intros n Hn. unfold character_names. rewrite Hm1, Hentries, fmap_app.
      intros [Hold| ->%list_elem_of_singleton]%elem_of_app; [|done].
      apply (Hfresh n); [apply elem_of_cons; by right|done].
    + exists m'. split; [done|].
      by rewrite Hentries', Hm1, Hentries, <- app_assoc.
Qed.

(** C5.  On a manager whose characters are well formed and carry no name
    twice (a fresh manager is one):
    - two calls with the same name leave exactly one entry with that
      name, carrying the second description, and the second call changes
      neither the names nor their positions;
    - a call with a name that is not there appends the entry at the end;
    - a call with a name that is there keeps the names and their order;
    - after any sequence of calls no name occurs twice, and after calls
      with pairwise distinct names on a fresh manager the entries are the
      calls, in call order. *)
Theorem define_character_one_entry_per_name :
  (∀ m name d1 d2,
     is_list_of is_character (main_characters (visual_state m)) = true →
     NoDup (character_names m) →
     ∃ m1 m2,
       define_character name d1 m = (Returns tt, m1)
       ∧ define_character name d2 m1 = (Returns tt, m2)
       ∧ is_list_of is_character (main_characters (visual_state m2)) = true
       ∧ filter (λ e, e.1 = name) (entries (main_characters (visual_state m2)))
         = [(name, d2)]
       ∧ character_names m2 = character_names m1)
  ∧ (∀ m name description,
       is_list_of is_character (main_characters (visual_state m)) = true →
       name ∉ character_names m →
       ∃ m', define_character name description m = (Returns tt, m')
             ∧ entries (main_characters (visual_state m'))
               = entries (main_characters (visual_state m))
                 ++ [(name, description)])
  ∧ (∀ m name description,
       is_list_of is_character (main_characters (visual_state m)) = true →
       name ∈ character_names m →
       ∃ m', define_character name description m = (Returns tt, m')
             ∧ character_names m' = character_names m)
  ∧ (∀ m calls,
       is_list_of is_character (main_characters (visual_state m)) = true →
       NoDup (character_names m) →
       ∃ m', define_all calls m = (Returns tt, m')
             ∧ is_list_of is_character (main_characters (visual_state m'))
               = true
             ∧ NoDup (character_names m'))
  ∧ (∀ key calls,
       ∃ m', define_all calls (new_manager key) = (Returns tt, m')
             ∧ NoDup (character_names m'))
  ∧ (∀ key calls,
       NoDup calls.*1 →
       ∃ m', define_all calls (new_manager key) = (Returns tt, m')
             ∧ entries (main_characters (visual_state m')) = calls).
Proof.
  split_and!.
  - intros m name d1 d2 Hvalid Hnodup.
    destruct (define_character_twice name d1 d2 m Hvalid)
      as (m1 & m2 & Hrun1 & Hrun2 & Hvalid2 & Hentries1 & Hentries2).
    exists m1, m2. split_and!; try done.
    + rewrite Hentries2. by apply upsert_one_entry.
    + unfold character_names.
      rewrite Hentries2, <- (upsert_twice name d1 d2), <- Hentries1.
      apply upsert_names_present. rewrite Hentries1.
      destruct (decide (name ∈ (entries (main_characters (visual_state m))).*1))
        as [Hin|Hfresh].
      * by rewrite upsert_names_present.
      * rewrite upsert_fresh, fmap_app by done. apply elem_of_app. right.
        by apply list_elem_of_singleton.
  - intros m name description Hvalid Hfresh.
    destruct (define_character_run name description m Hvalid)
      as (chars' & Hrun & _ & Hentries).
    eexists. split; [exact Hrun|].
    destruct m as [key st]. cbn [on_visual_state visual_state main_characters
                                 with_main_characters] in *.
    by rewrite Hentries, upsert_fresh.
  - intros m name description Hvalid Hin.
    destruct (define_character_run name description m Hvalid)
      as (chars' & Hrun & _ & Hentries).
    eexists. split; [exact Hrun|].
    unfold character_names in *.
    destruct m as [key st]. cbn [on_visual_state visual_state main_characters
                                 with_main_characters] in *.
    by rewrite Hentries, upsert_names_present.
  - intros m calls. apply define_all_run.
  - intros key calls.
    destruct (define_all_run calls (new_manager key)) as (m' & Hrun & _ & Hnodup);
      [reflexivity|apply NoDup_nil_2|].
    by exists m'.
  - intros key calls Hnodup.
    destruct (define_all_fresh_names calls (new_manager key))
      as (m' & Hrun & Hentries); [reflexivity|done| |by exists m'].
    intros name _. apply not_elem_of_nil.
Qed.

(** ** Snapshots *)

Lemma known_keys_spec (data : gmap string pyval) :
  forallb (λ k, bool_decide (k ∈ field_names)) (map_to_list data).*1 = true
  ↔ ∀ k v, data !! k = Some v → k ∈ field_names.
Proof.
  rewrite forallb_forall. split.
  - intros Hall k v Hk.
    assert (In k (map_to_list data).*1) as Hin.
    { apply list_elem_of_In, list_elem_of_fmap. exists (k, v).
      split; [reflexivity|]. by apply elem_of_map_to_list. }
    apply Hall in Hin. by apply bool_decide_eq_true in Hin.
  - intros Hall k Hk. apply bool_decide_eq_true.
    apply list_elem_of_In, list_elem_of_fmap in Hk as ([k' v] & -> & Hkv).
    apply elem_of_map_to_list in Hkv. by eapply Hall.
Qed.

Lemma post_init_fields s :
  post_init s
  = mkVisualState (reference_image_url s)
      (match primary_colors s with PNone => PList [] | v => v end)
      (art_style s)
      (match main_characters s with PNone => PList [] | v => v end)
      (setting s) (lighting s) (atmosphere s) (camera_style s) (composition s)
      (current_segment s) (previous_scene_summary s) (seed s).
Proof.
  destruct s as [url colors style chars place light atmos cam comp seg summ sd].
  destruct colors, chars; reflexivity.
Qed.

(** C8, as the code has it.  [from_dict] validates nothing: when every key
    of the snapshot is a field name it returns a state in which a key that
    is present is stored as it is, whatever its shape, and a key that is
    absent takes the declared default ([None] for the two sequences, which
    [__post_init__] turns into empty lists); the only failure is the
    [TypeError] for a key that is not a field. *)
Theorem from_dict_trusts_its_input (data : gmap string pyval) :
  ((∀ k v, data !! k = Some v → k ∈ field_names) →
   ∃ s, from_dict data = Returns s
        ∧ reference_image_url s = default PNone (data !! "reference_image_url")
        ∧ primary_colors s
          = match data !! "primary_colors" with
            | Some PNone | None => PList []
            | Some v => v
            end
        ∧ art_style s
          = default (PStr "hand-drawn cartoon illustration") (data !! "art_style")
        ∧ main_characters s
          = match data !! "main_characters" with
            | Some PNone | None => PList []
            | Some v => v
            end
        ∧ setting s = default (PStr "") (data !! "setting")
        ∧ lighting s = default (PStr "bright, warm lighting") (data !! "lighting")
        ∧ atmosphere s
          = default (PStr "cheerful, educational") (data !! "atmosphere")
        ∧ camera_style s
          = default (PStr "medium shot, eye level") (data !! "camera_style")
        ∧ composition s
          = default (PStr "centered, balanced") (data !! "composition")
        ∧ current_segment s = default (PStr "hook") (data !! "current_segment")
        ∧ previous_scene_summary s
          = default (PStr "") (data !! "previous_scene_summary")
        ∧ seed s = default PNone (data !! "seed"))
  ∧ (¬ (∀ k v, data !! k = Some v → k ∈ field_names) →
     from_dict data = Raises TypeError).
Proof.
  unfold from_dict, VisualState_init. split.
  - intros Hkeys. rewrite (proj2 (known_keys_spec data) Hkeys).
    eexists. split; [reflexivity|].
    rewrite post_init_fields.
    cbn [reference_image_url primary_colors art_style main_characters setting
         lighting atmosphere camera_style composition current_segment
         previous_scene_summary seed].
    split_and!; try reflexivity.
    + by destruct (data !! "primary_colors") as [[]|].
    + by destruct (data !! "main_characters") as [[]|].
  - intros Hkeys.
    destruct (forallb _ _) eqn:Hall; [|reflexivity].
    exfalso. apply Hkeys. by apply (proj1 (known_keys_spec data)).
Qed.

Lemma load_state_run state_dict m :
  load_state state_dict m =
  match from_dict state_dict with
  | Returns s => (Returns tt, mkManager (openrouter_api_key m) s)
  | Raises e => (Raises e, m)
  end.
Proof.
  unfold load_state, lift, assign, mbind, M_bind.
  by destruct (from_dict state_dict).
Qed.

(** ** Style extraction *)

Lemma extract_run w diagram_url m :
  extract_style_from_diagram w diagram_url m =
  match http_get w diagram_url with
  | Raises _ => (Returns (PDict ∅), m)
  | Returns status_code =>
      if negb (status_code =? 200)%Z then (Returns (PDict ∅), m)
      else
        let st := visual_state m in
        match (if truthy_opt (openrouter_api_key m)
               then vision_result w else fallback_style) with
        | PDict d =>
            (Returns (PDict d),
             mkManager (openrouter_api_key m)
               (with_atmosphere (default (atmosphere st) (d !! "atmosphere"))
                  (with_primary_colors
                     (default (PList []) (d !! "primary_colors"))
                     (with_art_style (default (art_style st) (d !! "art_style"))
                        (with_reference_image_url (PStr diagram_url) st)))))
        | _ =>
            (Returns (PDict ∅),
             mkManager (openrouter_api_key m)
               (with_reference_image_url (PStr diagram_url) st))
        end
  end.
Proof.
  destruct m as [key st].
  unfold extract_style_from_diagram, try_except, attr, set_attr, reads, assign,
    lift, mbind, mret, M_bind, M_ret, on_visual_state.
  destruct (http_get w diagram_url) as [status_code|e]; [|reflexivity].
  destruct (negb (status_code =? 200)%Z); [reflexivity|].
  cbn [openrouter_api_key visual_state].
  destruct (if truthy_opt key then vision_result w else fallback_style);
    reflexivity.
Qed.

(** C4, as the code has it.  Once the download has answered 200,
    [reference_image_url] is the URL, whatever the analysis then gave (a
    dict, an empty dict, or something that is no dict at all); when the
    download fails, by status or by exception, the method returns an
    empty dict and leaves the state as it was. *)
Theorem reference_image_url_set_after_download w diagram_url m :
  (http_get w diagram_url = Returns 200%Z →
   reference_image_url
     (visual_state (extract_style_from_diagram w diagram_url m).2)
   = PStr diagram_url)
  ∧ (http_get w diagram_url ≠ Returns 200%Z →
     extract_style_from_diagram w diagram_url m = (Returns (PDict ∅), m)).
Proof.
  rewrite extract_run. split.
  - intros ->. cbn [Z.eqb Pos.eqb negb].
    by destruct (if truthy_opt _ then _ else _).
  - intros Hfail. destruct (http_get w diagram_url) as [status_code|e];
      [|reflexivity].
    destruct (Z.eqb_spec status_code 200) as [->|_]; [done|reflexivity].
Qed.

(** What a successful extraction merges: [art_style] and [atmosphere]
    fall back to the value in the state, [primary_colors] to the empty
    list. *)
Lemma extract_merge w diagram_url m d :
  http_get w diagram_url = Returns 200%Z →
  (if truthy_opt (openrouter_api_key m) then vision_result w else fallback_style)
  = PDict d →
  let m' := (extract_style_from_diagram w diagram_url m).2 in
  (extract_style_from_diagram w diagram_url m).1 = Returns (PDict d)
  ∧ art_style (visual_state m')
    = default (art_style (visual_state m)) (d !! "art_style")
  ∧ atmosphere (visual_state m')
    = default (atmosphere (visual_state m)) (d !! "atmosphere")
  ∧ primary_colors (visual_state m')
    = default (PList []) (d !! "primary_colors").
Proof.
  intros Hget Hd. rewrite extract_run, Hget, Hd. cbn [Z.eqb Pos.eqb negb].
  by split_and!.
Qed.

(** ** The theorems at concrete inputs *)

(** C3.  The reply of the vision model has no "primary_colors" key: the
    palette of the state, red and blue, is replaced by the empty list,
    while [atmosphere], also absent from the reply, keeps its value and
    [art_style], present, is overwritten. *)
Theorem extract_resets_absent_primary_colors :
  (extract_style_from_diagram reply_without_colors diagram_url painted_manager).1
  = Returns (PDict {[ "art_style" := PStr "watercolor" ]})
  ∧ primary_colors (visual_state painted_manager)
    = PList [PStr "red"; PStr "blue"]
  ∧ primary_colors
      (visual_state
         (extract_style_from_diagram reply_without_colors diagram_url
            painted_manager).2)
    = PList []
  ∧ atmosphere
      (visual_state
         (extract_style_from_diagram reply_without_colors diagram_url
            painted_manager).2)
    = atmosphere (visual_state painted_manager)
  ∧ art_style
      (visual_state
         (extract_style_from_diagram reply_without_colors diagram_url
            painted_manager).2)
    = PStr "watercolor".
Proof. split_and!; vm_compute; reflexivity. Qed.

(** C4, the claim as written fails: after a download answered with 404,
    or one that raised, the method has returned an empty dict and
    [reference_image_url] is still [None]. *)
Lemma reference_image_url_unset_after_failed_download :
  extract_style_from_diagram failed_download diagram_url (new_manager None)
  = (Returns (PDict ∅), new_manager None)
  ∧ extract_style_from_diagram broken_connection diagram_url (new_manager None)
    = (Returns (PDict ∅), new_manager None)
  ∧ reference_image_url
      (visual_state
         (extract_style_from_diagram failed_download diagram_url
            (new_manager None)).2)
    ≠ PStr diagram_url.
Proof. split_and!; [reflexivity|reflexivity|vm_compute; discriminate]. Qed.

Lemma reference_image_url_set_after_download_witness :
  http_get reply_without_colors diagram_url = Returns 200%Z
  ∧ reference_image_url
      (visual_state
         (extract_style_from_diagram reply_without_colors diagram_url
            painted_manager).2)
    = PStr diagram_url.
Proof.
  split; [reflexivity|].
  apply (reference_image_url_set_after_download reply_without_colors
           diagram_url painted_manager).
  reflexivity.
Defined.

(** C8, the claim as written fails: the empty snapshot, in which every
    key is absent, is read as the default state, and a snapshot whose
    [art_style] is a number is read as a state holding that number;
    neither raises. *)
Lemma from_dict_accepts_malformed_snapshots :
  from_dict ∅ = Returns fresh_state
  ∧ from_dict misshapen_snapshot = Returns (with_art_style (PInt 7) fresh_state)
  ∧ valid_state (with_art_style (PInt 7) fresh_state) = false
  ∧ (load_state misshapen_snapshot (new_manager None)).1 = Returns tt.
Proof. split_and!; vm_compute; reflexivity. Qed.

Lemma from_dict_trusts_its_input_witness :
  (∀ k v, misshapen_snapshot !! k = Some v → k ∈ field_names)
  ∧ ∃ s, from_dict misshapen_snapshot = Returns s ∧ art_style s = PInt 7.
Proof.
  assert (∀ k v, misshapen_snapshot !! k = Some v → k ∈ field_names) as Hkeys.
  { apply known_keys_spec. vm_compute. reflexivity. }
  split; [exact Hkeys|].
  destruct (from_dict_trusts_its_input misshapen_snapshot) as [Hok _].
  destruct (Hok Hkeys) as (s & Hs & _ & _ & Hstyle & _).
  exists s. split; [exact Hs|]. rewrite Hstyle. reflexivity.
Defined.

Lemma snapshot_round_trip_witness :
  valid_state (visual_state storyteller) = true
  ∧ from_dict (to_dict (visual_state storyteller))
    = Returns (visual_state storyteller).
Proof.
  split; [reflexivity|].
  apply (snapshot_round_trip const_repr (visual_state storyteller)).
  reflexivity.
Defined.

Lemma continuity_clause_after_hook_only_witness :
  "concept" ≠ "hook"
  ∧ truthy (previous_scene_summary (visual_state storyteller)) = true
  ∧ (generate_consistent_prompt const_repr "A frog jumps" "concept" false None
       storyteller).1
    = Returns
        ("Continuing from previous scene: the frog woke up. A frog jumps "
         +:+ "Art style: hand-drawn cartoon illustration. "
         +:+ "bright, warm lighting, cheerful, educational. "
         +:+ "medium shot, eye level, centered, balanced.").
Proof.
  split; [discriminate|]. split; [reflexivity|].
  destruct (continuity_clause_after_hook_only const_repr "A frog jumps"
              "concept" false None storyteller) as (_ & _ & _ & Hclause & _).
  rewrite Hclause; [reflexivity|discriminate|reflexivity].
Defined.

Lemma current_segment_assigned_after_assembly_witness :
  valid_state (visual_state storyteller) = true
  ∧ ∃ prompt,
      generate_consistent_prompt const_repr "A frog jumps" "concept" true None
        storyteller
      = (Returns prompt,
         on_visual_state (with_current_segment (PStr "concept")) storyteller).
Proof.
  split; [reflexivity|].
  apply (current_segment_assigned_after_assembly const_repr "A frog jumps"
           "concept" true None storyteller).
  reflexivity.
Defined.

Lemma nameless_manager_raises :
  generate_consistent_prompt const_repr "A frog jumps" "concept" true None
    nameless_manager
  = (Raises KeyError, nameless_manager).
Proof. vm_compute. reflexivity. Qed.

Lemma enhance_falls_back_to_base_prompt_witness :
  consistency_manager nameless_helper = Some nameless_manager
  ∧ (enhance_video_prompt const_repr "A frog jumps" "concept" nameless_helper).1
    = Returns "A frog jumps".
Proof.
  split; [reflexivity|].
  destruct (enhance_falls_back_to_base_prompt const_repr "A frog jumps"
              "concept" nameless_helper) as (_ & Hraise & _).
  apply (Hraise nameless_manager KeyError nameless_manager);
    [reflexivity|vm_compute; reflexivity].
Defined.

Lemma enhance_updates_previous_scene_on_success_only_witness :
  consistency_manager nameless_helper = Some nameless_manager
  ∧ enhance_video_prompt const_repr "A frog jumps" "concept" nameless_helper
    = (Returns "A frog jumps", nameless_helper).
Proof.
  split; [reflexivity|].
  pose proof (enhance_updates_previous_scene_on_success_only const_repr
                "A frog jumps" "concept" nameless_helper nameless_manager
                eq_refl) as Hatomic.
  change (previous_scene nameless_helper) with (@None string) in Hatomic.
  rewrite nameless_manager_raises in Hatomic. apply Hatomic.
Defined.

Lemma initialize_from_video_session_age_bands_witness :
  decimal_of_str "4" = Some 4%Z
  ∧ returned (py_int decimal_of_str
                (default PNone (unparseable_age_session !! "child_age")))
    = false
  ∧ (∃ m', initialize_from_video_session const_repr decimal_of_str
             photosynthesis_session (new_manager None) = (Returns tt, m')
           ∧ setting (visual_state m') = PStr "Scene related to Photosynthesis"
           ∧ art_style (visual_state m')
             = PStr "simple, bold shapes, primary colors"
           ∧ atmosphere (visual_state m') = PStr "engaging, dinosaurs themed")
  ∧ (∃ m', initialize_from_video_session const_repr decimal_of_str
             unparseable_age_session storyteller = (Returns tt, m')
           ∧ art_style (visual_state m') = art_style (visual_state storyteller)).
Proof.
  split; [reflexivity|]. split; [reflexivity|]. split.
  - apply (initialize_from_video_session_age_bands const_repr decimal_of_str
             photosynthesis_session (new_manager None)); reflexivity.
  - apply (initialize_from_video_session_age_bands const_repr decimal_of_str
             unparseable_age_session storyteller); reflexivity.
Defined.

Lemma define_character_one_entry_per_name_witness :
  is_list_of is_character (main_characters (visual_state (new_manager None)))
  = true
  ∧ NoDup (character_names (new_manager None))
  ∧ ∃ m1 m2,
      define_character "Drippy" "a blue droplet" (new_manager None)
      = (Returns tt, m1)
      ∧ define_character "Drippy" "a smiling blue droplet" m1 = (Returns tt, m2)
      ∧ entries (main_characters (visual_state m2))
        = [("Drippy", "a smiling blue droplet")].
Proof.
  split; [reflexivity|]. split; [apply NoDup_nil_2|].
  destruct define_character_one_entry_per_name as [Htwice _].
  destruct (Htwice (new_manager None) "Drippy" "a blue droplet"
              "a smiling blue droplet" eq_refl (NoDup_nil_2))
    as (m1 & m2 & Hrun1 & Hrun2 & _).
  exists m1, m2. split; [exact Hrun1|]. split; [exact Hrun2|].
  vm_compute in Hrun1. injection Hrun1 as <-.
  vm_compute in Hrun2. injection Hrun2 as <-.
  vm_compute. reflexivity.
Defined.

(** The failing state above is one [load_state] produces. *)
Lemma nameless_manager_loaded :
  load_state nameless_snapshot (new_manager None) = (Returns tt, nameless_manager).
Proof. vm_compute. reflexivity. Qed.

(** The worked example of the spec: a fresh manager, the water-cycle
    session, one character, then a prompt for the "concept" segment. *)
Example water_cycle_prompt :
  ((_ ← initialize_from_video_session const_repr decimal_of_str
          water_cycle_session;
    _ ← define_character "Drippy" "a blue water droplet with a smiling face";
    generate_consistent_prompt const_repr "Drippy explains evaporation"
      "concept" false None) (new_manager None)).1
  = Returns
      ("Drippy explains evaporation "
       +:+ "Art style: colorful cartoon illustration, friendly characters. "
       +:+ "bright, warm lighting, engaging, space themed. "
       +:+ "Drippy: a blue water droplet with a smiling face. "
       +:+ "Setting: Scene related to Water Cycle. "
       +:+ "medium shot, eye level, centered, balanced.").
Proof. vm_compute. reflexivity. Qed.

(** Only the first three colours reach the palette clause. *)
Example palette_of_five_colors :
  (generate_consistent_prompt const_repr "A frog jumps" "hook" true
     (Some "Previous hook segment")
     (on_visual_state (with_primary_colors five_colors) (new_manager None))).1
  = Returns
      ("A frog jumps Art style: hand-drawn cartoon illustration. "
       +:+ "bright, warm lighting, cheerful, educational. "
       +:+ "Smooth motion, cinematic camera movement. "
       +:+ "Matching previous frame: Previous hook segment. "
       +:+ "Color palette: red, green, blue. "
       +:+ "medium shot, eye level, centered, balanced.").
Proof. vm_compute. reflexivity. Qed.

(** ** Further properties of the manager *)

(** X13.  [extract_style_from_diagram] never raises, and it leaves alone
    the API key and every field but [reference_image_url], [art_style],
    [primary_colors] and [atmosphere]. *)
Theorem extract_style_frame w diagram_url m :
  ∃ analysis m',
    extract_style_from_diagram w diagram_url m = (Returns analysis, m')
    ∧ openrouter_api_key m' = openrouter_api_key m
    ∧ main_characters (visual_state m') = main_characters (visual_state m)
    ∧ setting (visual_state m') = setting (visual_state m)
    ∧ lighting (visual_state m') = lighting (visual_state m)
    ∧ camera_style (visual_state m') = camera_style (visual_state m)
    ∧ composition (visual_state m') = composition (visual_state m)
    ∧ current_segment (visual_state m') = current_segment (visual_state m)
    ∧ previous_scene_summary (visual_state m')
      = previous_scene_summary (visual_state m)
    ∧ seed (visual_state m') = seed (visual_state m).
Proof.
  rewrite extract_run. destruct (http_get w diagram_url) as [status_code|e];
    [|by eexists _, _].
  destruct (negb (status_code =? 200)%Z); [by eexists _, _|].
  cbn zeta. destruct (if truthy_opt _ then _ else _); by eexists _, _.
Qed.

(** X14.  Without an API key ([None] or the empty string) a download
    answered with 200 gives the fixed fallback analysis, whatever the
    vision service would have said, and the state takes its three values
    and the URL. *)
Theorem extract_style_fallback_without_key w diagram_url m :
  truthy_opt (openrouter_api_key m) = false →
  http_get w diagram_url = Returns 200%Z →
  extract_style_from_diagram w diagram_url m
  = (Returns fallback_style,
     on_visual_state
       (λ st,
          with_atmosphere (PStr "educational, engaging")
            (with_primary_colors (PList [PStr "vibrant"; PStr "saturated"])
               (with_art_style (PStr "illustrated, colorful, kid-friendly")
                  (with_reference_image_url (PStr diagram_url) st))))
       m).
Proof.
  intros Hkey Hget. rewrite extract_run, Hget, Hkey. reflexivity.
Qed.

(** X15.  When the analysis that comes back is no dict (a JSON list, a
    string, a number, null), the method returns an empty dict, yet the
    state is not as before: [reference_image_url] has already been set to
    the URL; nothing else has changed. *)
Theorem extract_style_non_dict_analysis w diagram_url m :
  http_get w diagram_url = Returns 200%Z →
  truthy_opt (openrouter_api_key m) = true →
  (∀ d, vision_result w ≠ PDict d) →
  extract_style_from_diagram w diagram_url m
  = (Returns (PDict ∅),
     on_visual_state (with_reference_image_url (PStr diagram_url)) m).
Proof.
  intros Hget Hkey Hshape. rewrite extract_run, Hget, Hkey.
  cbn [Z.eqb Pos.eqb negb]. cbn zeta.
  destruct (vision_result w) as [| | | | |d]; try reflexivity.
  by destruct (Hshape d).
Qed.

(** X16.  [define_character] changes nothing but [main_characters], and
    when it raises (on a character list that is malformed) it changes
    nothing at all. *)
Theorem define_character_frame name description m r m' :
  define_character name description m = (r, m') →
  m' = on_visual_state
         (with_main_characters (main_characters (visual_state m'))) m
  ∧ (returned r = false → m' = m).
Proof.
  destruct m as [key st].
  unfold define_character, attr, set_attr, reads, assign, lift, mbind, mret,
    M_bind, M_ret. cbn [visual_state].
  destruct (py_iter (main_characters st)) as [items|e];
    [|intros [= <- <-]; split; [by destruct st|done]].
  destruct (update_existing items name description) as [[items'|]|e].
  - intros [= <- <-]. split; [reflexivity|discriminate].
  - destruct (py_append _ _) as [chars'|e]; intros [= <- <-].
    + split; [reflexivity|discriminate].
    + split; [by destruct st|done].
  - intros [= <- <-]. split; [by destruct st|done].
Qed.

Lemma upsert_length name description l :
  length (upsert name description l)
  = if decide (name ∈ l.*1) then length l else S (length l).
Proof.
  destruct (decide (name ∈ l.*1)) as [Hin|Hfresh].
  - rewrite <- (length_fmap fst (upsert _ _ _)), upsert_names_present by done.
    apply length_fmap.
  - rewrite upsert_fresh, length_app by done. cbn. lia.
Qed.

Lemma upsert_other_names name description other l :
  other ≠ name →
  filter (λ e, e.1 = other) (upsert name description l)
  = filter (λ e, e.1 = other) l.
Proof.
  intros Hne. induction l as [|[n x] rest IH].
  - cbn [upsert]. by rewrite filter_cons_False by (cbn; congruence).
  - cbn [upsert]. destruct (String.eqb_spec n name) as [->|Hn].
    + by rewrite !filter_cons_False by (cbn; congruence).
    + destruct (decide (n = other)) as [->|Hother].
      * rewrite !filter_cons_True by done. by rewrite IH.
      * rewrite !filter_cons_False by (cbn; congruence). exact IH.
Qed.

(** X17.  On a well-formed character list [define_character] never
    removes or merges entries: the list grows by one when the name is
    new and keeps its length otherwise, and the entries of every other
    name are untouched.  (A list loaded with a name twice keeps both
    entries.) *)
Theorem define_character_keeps_other_entries name description m :
  is_list_of is_character (main_characters (visual_state m)) = true →
  ∃ m',
    define_character name description m = (Returns tt, m')
    ∧ length (entries (main_characters (visual_state m')))
      = (if decide (name ∈ character_names m)
         then length (entries (main_characters (visual_state m)))
         else S (length (entries (main_characters (visual_state m)))))
    ∧ ∀ other, other ≠ name →
        filter (λ e, e.1 = other) (entries (main_characters (visual_state m')))
        = filter (λ e, e.1 = other)
            (entries (main_characters (visual_state m))).
Proof.
  intros Hvalid.
  destruct (define_character_run name description m Hvalid)
    as (chars' & Hrun & _ & Hentries).
  eexists. split; [exact Hrun|].
  assert (main_characters
            (visual_state (on_visual_state (with_main_characters chars') m))
          = chars') as -> by by destruct m.
  rewrite Hentries. split; [apply upsert_length|].
  intros other Hne. by apply upsert_other_names.
Qed.

Lemma get_reference_image_params_run m :
  get_reference_image_params m =
  (Returns (if truthy (reference_image_url (visual_state m))
            then Some (mkParams (reference_image_url (visual_state m))
                         (6 # 10)%Q "style")
            else None), m).
Proof.
  unfold get_reference_image_params, attr, reads, mbind, mret, M_bind, M_ret.
  by destruct (truthy _).
Qed.

(** X18.  After an extraction whose download answered 200 the reference
    parameters are there and carry the URL, unless the URL is the empty
    string, which counts as no reference; after a failed download they
    are what they were before. *)
Theorem reference_params_after_extraction w diagram_url m :
  (http_get w diagram_url = Returns 200%Z →
   (get_reference_image_params
      (extract_style_from_diagram w diagram_url m).2).1
   = Returns (if negb (diagram_url =? "")
              then Some (mkParams (PStr diagram_url) (6 # 10)%Q "style")
              else None))
  ∧ (http_get w diagram_url ≠ Returns 200%Z →
     (get_reference_image_params
        (extract_style_from_diagram w diagram_url m).2).1
     = (get_reference_image_params m).1).
Proof.
  rewrite !get_reference_image_params_run, extract_run. split.
  - intros ->. cbn [Z.eqb Pos.eqb negb]. cbn zeta.
    destruct (if truthy_opt _ then _ else _); cbn;
      by destruct (negb (diagram_url =? "")).
  - intros Hfail. destruct (http_get w diagram_url) as [status_code|e];
      [|reflexivity].
    destruct (Z.eqb_spec status_code 200) as [->|_]; [done|reflexivity].
Qed.

(** X19.  A state that [from_dict] returns never has [None] for its two
    sequences, whatever the snapshot held for them. *)
Theorem from_dict_sequences_not_none data s :
  from_dict data = Returns s →
  primary_colors s ≠ PNone ∧ main_characters s ≠ PNone.
Proof.
  unfold from_dict, VisualState_init.
  destruct (forallb _ _); [|discriminate]. intros [= <-].
  rewrite post_init_fields. cbn [primary_colors main_characters].
  split.
  - by destruct (default PNone (data !! "primary_colors")).
  - by destruct (default PNone (data !! "main_characters")).
Qed.

(** ** Further properties of the helper *)

(** X20.  [initialize] never raises and always leaves a manager in
    place, without an API key, and it keeps [previous_scene].  It returns
    [True] exactly when the storage gave a dict that [from_dict] accepts,
    and then the manager holds the state read from it; in every other
    case the manager is a fresh one. *)
Theorem helper_initialize_outcomes stored h :
  ∃ ok m,
    initialize stored h
    = (Returns ok, mkHelper (user_id h) (session_id h) (Some m) (previous_scene h))
    ∧ openrouter_api_key m = None
    ∧ (ok = true ↔
       ∃ state_dict, stored = Returns (PDict state_dict)
                     ∧ from_dict state_dict = Returns (visual_state m))
    ∧ (ok = false → m = new_manager None).
Proof.
  rewrite initialize_run.
  destruct stored as [v|e].
  - destruct v as [| | | | |state_dict];
      try (exists false, (new_manager None); split_and!;
           [reflexivity|reflexivity| |done];
           split; [discriminate|by intros (? & [=] & _)]).
    destruct (from_dict state_dict) as [s|e] eqn:Hload.
    + exists true, (mkManager None s). split_and!; try done.
      split; [|done]. intros _. by exists state_dict.
    + exists false, (new_manager None). split_and!; try done.
      split; [discriminate|].
      intros (d & [= <-] & Hd). rewrite Hload in Hd. discriminate.
  - exists false, (new_manager None). split_and!; try done.
    split; [discriminate|by intros (? & [=] & _)].
Qed.

(** X21.  What [get_state] writes, [initialize] reads back: for a manager
    with a valid state, a helper initialised from the stored snapshot
    reports success and holds that very state, so [get_seed] and
    [get_reference_image_url] answer with the manager's seed and
    reference image; the API key is not part of the snapshot and is gone. *)
Theorem helper_reads_back_get_state m h :
  valid_state (visual_state m) = true →
  let stored := match (get_state m).1 with
                | Returns snapshot => Returns (PDict snapshot)
                | Raises e => Raises e
                end in
  let h' := (initialize stored h).2 in
  (initialize stored h).1 = Returns true
  ∧ consistency_manager h' = Some (mkManager None (visual_state m))
  ∧ get_seed h' = (Returns (seed (visual_state m)), h')
  ∧ get_reference_image_url h'
    = (Returns (reference_image_url (visual_state m)), h').
Proof.
  intros Hvalid stored h'. subst stored h'.
  cbn [get_state reads fst]. rewrite initialize_run.
  rewrite from_dict_to_dict, post_init_valid by done.
  by split_and!.
Qed.

(** ** The further properties at concrete inputs *)

Lemma generate_prompt_repeatable_witness :
  ∃ prompt m',
    generate_consistent_prompt const_repr "A frog jumps" "concept" true None
      storyteller = (Returns prompt, m')
    ∧ generate_consistent_prompt const_repr "A frog jumps" "concept" true None
        m' = (Returns prompt, m').
Proof.
  eexists _, _. split; [vm_compute; reflexivity|].
  apply (generate_prompt_repeatable const_repr "A frog jumps" "concept" true
           None storyteller).
  vm_compute. reflexivity.
Defined.

Lemma palette_uses_first_three_colors_witness :
  primary_colors (visual_state colorful_manager) = five_colors
  ∧ (generate_consistent_prompt const_repr "A frog jumps" "hook" false None
       (on_visual_state
          (with_primary_colors (PList [PStr "red"; PStr "green"; PStr "blue"]))
          colorful_manager)).1
    = (generate_consistent_prompt const_repr "A frog jumps" "hook" false None
         colorful_manager).1.
Proof.
  split; [reflexivity|].
  apply (palette_uses_first_three_colors const_repr "A frog jumps" "hook"
           false None colorful_manager
           [PStr "red"; PStr "green"; PStr "blue"; PStr "pink"; PStr "grey"]).
  reflexivity.
Defined.

Lemma update_scene_context_drives_the_clause_witness :
  "the frog woke up" ≠ "" ∧ "concept" ≠ "hook"
  ∧ (generate_consistent_prompt const_repr "A frog jumps" "concept" false None
       (on_visual_state
          (with_previous_scene_summary (PStr "the frog woke up"))
          (new_manager None))).1
    = Returns
        ("Continuing from previous scene: the frog woke up. A frog jumps "
         +:+ "Art style: hand-drawn cartoon illustration. "
         +:+ "bright, warm lighting, cheerful, educational. "
         +:+ "medium shot, eye level, centered, balanced.").
Proof.
  split; [discriminate|]. split; [discriminate|].
  destruct (update_scene_context_drives_the_clause const_repr
              "the frog woke up" "A frog jumps" "concept" false None
              (new_manager None)) as (_ & Hclause & _).
  rewrite Hclause; [reflexivity|discriminate|discriminate].
Defined.

Lemma initialize_from_video_session_bands_witness :
  truthy (default PNone (age_seven_session !! "child_age")) = true
  ∧ py_int decimal_of_str (default PNone (age_seven_session !! "child_age"))
    = Returns 7%Z
  ∧ art_style
      (visual_state
         (initialize_from_video_session const_repr decimal_of_str
            age_seven_session (new_manager None)).2)
    = PStr "colorful cartoon illustration, friendly characters".
Proof.
  split; [reflexivity|]. split; [reflexivity|].
  exact (initialize_from_video_session_bands const_repr decimal_of_str
           age_seven_session (new_manager None) 7 eq_refl eq_refl).
Defined.

Lemma initialize_from_video_session_skips_falsy_witness :
  truthy (default PNone (age_zero_session !! "child_age")) = false
  ∧ art_style
      (visual_state
         (initialize_from_video_session const_repr decimal_of_str
            age_zero_session storyteller).2)
    = art_style (visual_state storyteller).
Proof.
  split; [reflexivity|].
  apply (initialize_from_video_session_skips_falsy const_repr decimal_of_str
           age_zero_session storyteller).
  reflexivity.
Defined.

Lemma enhance_passes_previous_segment_on_witness :
  consistency_manager storyteller_helper = Some storyteller
  ∧ valid_state (visual_state storyteller) = true
  ∧ ∃ enhanced1 enhanced2 h1 h2,
      enhance_video_prompt const_repr "A frog wakes up" "hook"
        storyteller_helper = (Returns enhanced1, h1)
      ∧ enhance_video_prompt const_repr "A frog jumps" "concept" h1
        = (Returns enhanced2, h2)
      ∧ previous_scene h2 = Some "Previous concept segment".
Proof.
  split; [reflexivity|]. split; [reflexivity|].
  destruct (enhance_passes_previous_segment_on const_repr "A frog wakes up"
              "hook" "A frog jumps" "concept" storyteller_helper storyteller
              eq_refl eq_refl)
    as (enhanced1 & enhanced2 & m1 & h1 & h2 & Hrun1 & Hrun2 & _ & _ & Hprev).
  by exists enhanced1, enhanced2, h1, h2.
Defined.

Lemma apply_video_consistency_unenhanced_witness :
  from_dict nameless_snapshot = Returns (visual_state nameless_manager)
  ∧ NoDup two_prompts.*1
  ∧ apply_video_consistency const_repr "user-1" "session-1"
      (Returns (PDict nameless_snapshot)) two_prompts
    = Returns (list_to_map two_prompts).
Proof.
  assert (NoDup two_prompts.*1) as Hnodup.
  { apply NoDup_cons. split; [by intros ?%list_elem_of_singleton|].
    apply NoDup_singleton. }
  split; [vm_compute; reflexivity|]. split; [exact Hnodup|].
  apply (apply_video_consistency_unenhanced const_repr "user-1" "session-1"
           nameless_snapshot (visual_state nameless_manager) two_prompts
           "A frog jumps" "concept" true None KeyError);
    [vm_compute; reflexivity|vm_compute; reflexivity|exact Hnodup].
Defined.

Lemma apply_video_consistency_defaults_witness :
  (initialize (Returns (PList [])) (new_helper "user-1" "session-1")).1
  = Returns false
  ∧ apply_video_consistency const_repr "user-1" "session-1"
      (Returns (PList [])) two_prompts
    = apply_video_consistency const_repr "user-1" "session-1"
        (Returns (PDict ∅)) two_prompts.
Proof.
  split; [reflexivity|].
  apply (apply_video_consistency_defaults const_repr "user-1" "session-1"
           (Returns (PList [])) two_prompts).
  reflexivity.
Defined.

Lemma extract_style_fallback_without_key_witness :
  truthy_opt (openrouter_api_key (new_manager (Some ""))) = false
  ∧ http_get reply_without_colors diagram_url = Returns 200%Z
  ∧ (extract_style_from_diagram reply_without_colors diagram_url
       (new_manager (Some ""))).1
    = Returns fallback_style.
Proof.
  split; [reflexivity|]. split; [reflexivity|].
  rewrite (extract_style_fallback_without_key reply_without_colors diagram_url
             (new_manager (Some "")) eq_refl eq_refl).
  reflexivity.
Defined.

Lemma extract_style_non_dict_analysis_witness :
  http_get list_reply diagram_url = Returns 200%Z
  ∧ truthy_opt (openrouter_api_key painted_manager) = true
  ∧ extract_style_from_diagram list_reply diagram_url painted_manager
    = (Returns (PDict ∅),
       on_visual_state (with_reference_image_url (PStr diagram_url))
         painted_manager).
Proof.
  split; [reflexivity|]. split; [reflexivity|].
  apply (extract_style_non_dict_analysis list_reply diagram_url painted_manager);
    [reflexivity|reflexivity|discriminate].
Defined.

Lemma define_character_frame_witness :
  define_character "Drippy" "a blue droplet" nameless_manager
  = (Raises KeyError, nameless_manager)
  ∧ nameless_manager
    = on_visual_state
        (with_main_characters (main_characters (visual_state nameless_manager)))
        nameless_manager.
Proof.
  split; [vm_compute; reflexivity|].
  destruct (define_character_frame "Drippy" "a blue droplet" nameless_manager
              (Raises KeyError) nameless_manager) as [Hframe _];
    [vm_compute; reflexivity|exact Hframe].
Defined.

Lemma define_character_keeps_other_entries_witness :
  is_list_of is_character (main_characters (visual_state (new_manager None)))
  = true
  ∧ ∃ m', define_character "Drippy" "a blue droplet" (new_manager None)
          = (Returns tt, m')
          ∧ length (entries (main_characters (visual_state m'))) = 1.
Proof.
  split; [reflexivity|].
  destruct (define_character_keeps_other_entries "Drippy" "a blue droplet"
              (new_manager None) eq_refl) as (m' & Hrun & Hlen & _).
  exists m'. split; [exact Hrun|]. rewrite Hlen. reflexivity.
Defined.

Lemma reference_params_after_extraction_witness :
  http_get reply_without_colors diagram_url = Returns 200%Z
  ∧ (get_reference_image_params
       (extract_style_from_diagram reply_without_colors diagram_url
          painted_manager).2).1
    = Returns (Some (mkParams (PStr diagram_url) (6 # 10)%Q "style")).
Proof.
  split; [reflexivity|].
  destruct (reference_params_after_extraction reply_without_colors diagram_url
              painted_manager) as [Hset _].
  rewrite Hset; reflexivity.
Defined.

Lemma from_dict_sequences_not_none_witness :
  from_dict null_palette_snapshot = Returns fresh_state
  ∧ primary_colors fresh_state ≠ PNone.
Proof.
  split; [vm_compute; reflexivity|].
  apply (from_dict_sequences_not_none null_palette_snapshot fresh_state).
  vm_compute. reflexivity.
Defined.

Lemma helper_reads_back_get_state_witness :
  valid_state (visual_state painted_manager) = true
  ∧ consistency_manager
      (initialize (Returns (PDict (to_dict (visual_state painted_manager))))
         (new_helper "user-1" "session-1")).2
    = Some (mkManager None (visual_state painted_manager)).
Proof.
  split; [reflexivity|].
  apply (helper_reads_back_get_state painted_manager
           (new_helper "user-1" "session-1")).
  reflexivity.
Defined.
